(** * Invoice handler front end: extraction loop, field reconciliation, commit

    A shallow embedding of the logic of the upload page of the invoice
    handler front end, and the properties of the specification checked
    against it.

    The repository holds several revisions of the page.  Two of them carry
    the logic studied here, and each gets a module of its own:

    - [Paged], from [src/components/UploadPage.tsx] (the same handlers are in
      [App.tsx] of the earlier revisions): the paged extraction loop
      [handleFilesSelected], the rate-driven [handleUpdateResult], and the
      commit handlers that write without a conflict check and merge the
      returned supplier ids;
    - [Gated], from the later revision of [UploadPage.tsx]: the sum-driven
      [handleUpdateResult] and the commit handlers [handleSaveSingle] and
      [handleSaveAll] that consult [checkInvoiceConflicts] before
      [saveInvoicesBatch].

    JavaScript numbers are IEEE 754 binary64 values; they are modelled by
    Rocq's primitive floats, which are the same format with the same
    rounding, so that every arithmetic expression of the source evaluates
    here to the value it has in the browser. *)

From Stdlib Require Import Ascii ZArith Floats Bool String Reals Lra.
From stdpp Require Import base option list gmap.

Set Warnings "-inexact-float".
Local Open Scope Z_scope.

(* ===================================================================== *)
(** * JavaScript numbers *)
(* ===================================================================== *)

Module JsNumber.

Abbreviation number := float.

(** The global [isFinite] at a number: false at NaN and at the two
    infinities. *)
Definition isFinite (x : number) : bool :=
  match Prim2SF x with
  | S754_zero _ | S754_finite _ _ _ => true
  | S754_infinity _ | S754_nan => false
  end.

(** An integer of magnitude at most 2^53 as a number (exact). *)
Definition of_integer (n : Z) : number :=
  if n <? 0 then (- of_uint63 (Uint63.of_Z (- n)))%float
  else of_uint63 (Uint63.of_Z n).

(** [Math.round]: the integral number closest to [x], the one nearer to
    +∞ at a tie; NaN, the infinities and the zeros are returned as they
    are, and a negative [x >= -0.5] gives -0.  At [x = ±m·2^e] with
    [e < 0] the result is the floor of [x + 1/2], computed exactly on
    the integers; with [e >= 0] the number is integral already. *)
Definition Math_round (x : number) : number :=
  match Prim2SF x with
  | S754_finite s m e =>
      if 0 <=? e then x
      else
        let twice := 2 * (if s then Z.neg m else Z.pos m) in
        let n := (twice + 2 ^ (- e)) `div` 2 ^ (1 - e) in
        if n =? 0 then (if s then neg_zero else zero) else of_integer n
  | _ => x
  end.

(** A number in a condition: false at +0, -0 and NaN. *)
Definition truthy (x : number) : bool :=
  negb (is_zero x || is_nan x).

(** [o ?? 0] and [typeof o === 'number' ? o : 0] at an optional number. *)
Definition or_zero (o : option number) : number := default zero o.

(** [!o] at an optional number: true at undefined, 0, -0 and NaN. *)
Definition falsy (o : option number) : bool :=
  match o with
  | Some x => negb (truthy x)
  | None => true
  end.

End JsNumber.
Import JsNumber.

(** [round2], the same arrow function in every revision of the page:
<<
  const round2 = (n: number | undefined) =>
    (typeof n === 'number' && isFinite(n) ? Math.round(n * 100) / 100 : undefined);
>> *)
Definition round2 (n : option number) : option number :=
  match n with
  | Some x => if isFinite x then Some (Math_round (x * 100) / 100)%float else None
  | None => None
  end.

(* ===================================================================== *)
(** * The data model ([types/invoice.ts]) *)
(* ===================================================================== *)

Record BoundingBox := {
  polygon : list (list number);
  page_number : Z;
}.

Record LineItem := {
  description : string;
  quantity : option number;
  unit_price : option number;
  line_total : option number;
}.

(** [InvoiceData].  An optional property is an [option]; [null] and
    [undefined] are not told apart in [due_date] and [payment_terms]
    (the handlers treat both alike).  [supplier_id] is not declared by
    the interface: the commit handlers read and write it through
    [(r as any).supplier_id]. *)
Record InvoiceData := {
  file_name : string;
  source_path : string;
  file_url : option string;
  language : string;
  document_type : string;
  supplier_name : option string;
  invoice_number : option string;
  invoice_date : option string;
  due_date : option string;
  payment_terms : option string;
  status : option string;
  currency : option string;
  subtotal : option number;
  tax_amount : option number;
  total : option number;
  line_items : option (list LineItem);
  confidence : option number;
  bounding_boxes : option (list (string * BoundingBox));
  page_count : option number;
  field_confidence : option (list (string * number));
  supplier_id : option Z;
}.

(** Assignments to one property of a copy of the object. *)
Definition set_subtotal (v : option number) (r : InvoiceData) : InvoiceData :=
  let 'Build_InvoiceData a b c d e f g h i j k l _ n o p q s t u w := r in
  Build_InvoiceData a b c d e f g h i j k l v n o p q s t u w.

Definition set_tax_amount (v : option number) (r : InvoiceData) : InvoiceData :=
  let 'Build_InvoiceData a b c d e f g h i j k l m _ o p q s t u w := r in
  Build_InvoiceData a b c d e f g h i j k l m v o p q s t u w.

Definition set_total (v : option number) (r : InvoiceData) : InvoiceData :=
  let 'Build_InvoiceData a b c d e f g h i j k l m n _ p q s t u w := r in
  Build_InvoiceData a b c d e f g h i j k l m n v p q s t u w.

Definition set_confidence (v : option number) (r : InvoiceData) : InvoiceData :=
  let 'Build_InvoiceData a b c d e f g h i j k l m n o p _ s t u w := r in
  Build_InvoiceData a b c d e f g h i j k l m n o p v s t u w.

Definition set_supplier_id (v : option Z) (r : InvoiceData) : InvoiceData :=
  let 'Build_InvoiceData a b c d e f g h i j k l m n o p q s t u _ := r in
  Build_InvoiceData a b c d e f g h i j k l m n o p q s t u v.

Definition set_file_name (v : string) (r : InvoiceData) : InvoiceData :=
  let 'Build_InvoiceData _ b c d e f g h i j k l m n o p q s t u w := r in
  Build_InvoiceData v b c d e f g h i j k l m n o p q s t u w.

Definition set_source_path (v : string) (r : InvoiceData) : InvoiceData :=
  let 'Build_InvoiceData a _ c d e f g h i j k l m n o p q s t u w := r in
  Build_InvoiceData a v c d e f g h i j k l m n o p q s t u w.

Definition set_file_url (v : option string) (r : InvoiceData) : InvoiceData :=
  let 'Build_InvoiceData a b _ d e f g h i j k l m n o p q s t u w := r in
  Build_InvoiceData a b v d e f g h i j k l m n o p q s t u w.

Definition set_language (v : string) (r : InvoiceData) : InvoiceData :=
  let 'Build_InvoiceData a b c _ e f g h i j k l m n o p q s t u w := r in
  Build_InvoiceData a b c v e f g h i j k l m n o p q s t u w.

Definition set_document_type (v : string) (r : InvoiceData) : InvoiceData :=
  let 'Build_InvoiceData a b c d _ f g h i j k l m n o p q s t u w := r in
  Build_InvoiceData a b c d v f g h i j k l m n o p q s t u w.

Definition set_supplier_name (v : option string) (r : InvoiceData) : InvoiceData :=
  let 'Build_InvoiceData a b c d e _ g h i j k l m n o p q s t u w := r in
  Build_InvoiceData a b c d e v g h i j k l m n o p q s t u w.

Definition set_invoice_number (v : option string) (r : InvoiceData) : InvoiceData :=
  let 'Build_InvoiceData a b c d e f _ h i j k l m n o p q s t u w := r in
  Build_InvoiceData a b c d e f v h i j k l m n o p q s t u w.

Definition set_invoice_date (v : option string) (r : InvoiceData) : InvoiceData :=
  let 'Build_InvoiceData a b c d e f g _ i j k l m n o p q s t u w := r in
  Build_InvoiceData a b c d e f g v i j k l m n o p q s t u w.

Definition set_due_date (v : option string) (r : InvoiceData) : InvoiceData :=
  let 'Build_InvoiceData a b c d e f g h _ j k l m n o p q s t u w := r in
  Build_InvoiceData a b c d e f g h v j k l m n o p q s t u w.

Definition set_payment_terms (v : option string) (r : InvoiceData) : InvoiceData :=
  let 'Build_InvoiceData a b c d e f g h i _ k l m n o p q s t u w := r in
  Build_InvoiceData a b c d e f g h i v k l m n o p q s t u w.

Definition set_status (v : option string) (r : InvoiceData) : InvoiceData :=
  let 'Build_InvoiceData a b c d e f g h i j _ l m n o p q s t u w := r in
  Build_InvoiceData a b c d e f g h i j v l m n o p q s t u w.

Definition set_currency (v : option string) (r : InvoiceData) : InvoiceData :=
  let 'Build_InvoiceData a b c d e f g h i j k _ m n o p q s t u w := r in
  Build_InvoiceData a b c d e f g h i j k v m n o p q s t u w.

(** The editable cells.  The table and the grid convert what was typed
    before they call [onUpdate]: for [subtotal], [tax_amount], [total] and
    [confidence] the value is [value ? parseFloat(value) : undefined], a
    number (NaN included) or undefined; for every other key it is the
    string as typed.  An [edit] is a key with a value of that shape. *)
Inductive number_key := k_subtotal | k_tax_amount | k_total | k_confidence.

Inductive string_key :=
  | k_file_name | k_source_path | k_file_url | k_language | k_document_type
  | k_supplier_name | k_invoice_number | k_invoice_date | k_due_date
  | k_payment_terms | k_status | k_currency.

Inductive edit :=
  | EditNumber (field : number_key) (value : option number)
  | EditString (field : string_key) (value : string).

(** [(inv as any)[field] = value] *)
Definition assign (e : edit) (inv : InvoiceData) : InvoiceData :=
  match e with
  | EditNumber k_subtotal v => set_subtotal v inv
  | EditNumber k_tax_amount v => set_tax_amount v inv
  | EditNumber k_total v => set_total v inv
  | EditNumber k_confidence v => set_confidence v inv
  | EditString k_file_name v => set_file_name v inv
  | EditString k_source_path v => set_source_path v inv
  | EditString k_file_url v => set_file_url (Some v) inv
  | EditString k_language v => set_language v inv
  | EditString k_document_type v => set_document_type v inv
  | EditString k_supplier_name v => set_supplier_name (Some v) inv
  | EditString k_invoice_number v => set_invoice_number (Some v) inv
  | EditString k_invoice_date v => set_invoice_date (Some v) inv
  | EditString k_due_date v => set_due_date (Some v) inv
  | EditString k_payment_terms v => set_payment_terms (Some v) inv
  | EditString k_status v => set_status (Some v) inv
  | EditString k_currency v => set_currency (Some v) inv
  end.




(** [setResults(prev => { const updated = prev.map((item, idx) =>
    idx === index ? { ...item } : item); const inv = updated[index]; ... })]:
    the record at [index] is replaced by an edited copy and the others are
    kept.  With [index] out of range [inv] is undefined and the assignment
    to its property throws a TypeError: [None]. *)
Definition update_at (index : nat) (f : InvoiceData -> InvoiceData)
    (prev : list InvoiceData) : option (list InvoiceData) :=
  inv ← prev !! index; Some (<[index := f inv]> prev).

(** [field === 'subtotal'] and the like. *)
Definition field_is (k : number_key) (e : edit) : bool :=
  match e, k with
  | EditNumber k_subtotal _, k_subtotal
  | EditNumber k_tax_amount _, k_tax_amount
  | EditNumber k_total _, k_total
  | EditNumber k_confidence _, k_confidence => true
  | _, _ => false
  end.

(* ===================================================================== *)
(** * The wire types ([types/invoice.ts], [api/client.ts]) *)
(* ===================================================================== *)

(** Each interface is a module with its record, so that the property names
    of the source can be kept ([ProcessResponse.results],
    [SaveInvoicesBatchResult.supplier_id], ...).  Counts, indices and
    identifiers are whole numbers in the protocol; they are integers here,
    on which [+=], [<] and [!= null] are those of the source below 2^53. *)

Module ProcessRequest.
Record t := {
  path : string;
  recursive : bool;
  language_detection : bool;
  starting_point : Z;
}.
End ProcessRequest.

Module ProcessResponse.
Record t := {
  results : list InvoiceData;
  errors : list string;
  total_files : Z;
  files_handled : Z;
  vat_rate : option number;
}.
End ProcessResponse.

Module SaveInvoicePayload.
Record metadata := {
  field_confidence : option (list (string * number));
  bounding_boxes : option (list (string * BoundingBox));
  page_count : option number;
}.
Record t := {
  supplier_id : option Z;
  supplier_name : option string;
  invoice_number : string;
  invoice_date : string;
  due_date : option string;
  payment_terms : option string;
  currency : string;
  subtotal : number;
  vat_amount : number;
  total : number;
  doc_name : string;
  doc_full_path : string;
  document_type : string;
  status : string;
  ocr_confidence : option number;
  ocr_language : string;
  ocr_metadata : metadata;
  needs_review : bool;
}.
End SaveInvoicePayload.

Module SaveInvoicesBatchRequest.
Record t := {
  customer_id : Z;
  invoices : list SaveInvoicePayload.t;
}.
End SaveInvoicesBatchRequest.

(** A row of the write response.  [is_update] is read by the later
    revision of the page ([r.is_update]). *)
Module SaveInvoicesBatchResult.
Record t := {
  index : Z;
  invoice_number : string;
  inserted_id : option Z;
  supplier_id : option Z;
  supplier_created : option bool;
  is_update : option bool;
  conflict : option bool;
  error : option string;
}.
End SaveInvoicesBatchResult.

Module SaveInvoicesBatchResponse.
Record t := { results : list SaveInvoicesBatchResult.t }.
End SaveInvoicesBatchResponse.

(** Modelled from the spec: the declaration of [ConflictCheckResponse] in
    [api/client.ts] (the page imports the type and reads [has_conflicts]);
    the specification gives the response of the conflict check as
    [{hasConflicts: boolean, conflicts: {invoiceNumber, type, message}[]}]. *)
Module ConflictCheckResponse.
Record item := {
  invoice_number : string;
  type : string;
  message : string;
}.
Record t := {
  has_conflicts : bool;
  conflicts : list item;
}.
End ConflictCheckResponse.

(** ** Values in conditions *)

(** A string in a condition: the empty string is falsy. *)
Definition nonempty (s : string) : bool := negb (bool_decide (s = EmptyString)).

(** [o || d] at an optional string. *)
Definition string_or (o : option string) (d : string) : string :=
  match o with
  | Some s => if nonempty s then s else d
  | None => d
  end.

(** ** Strings

    A JavaScript string is a sequence of UTF-16 code units.  A [string]
    here holds the UTF-8 bytes of the text (a surrogate that stands alone
    is written as the three bytes of its own code), so that the literals
    read as in the source.  Equality and emptiness are the same on both
    sides; lengths and positions are not, and they are counted here as the
    source counts them, in code units: a sequence of one, two or three
    bytes is one unit, a sequence of four bytes is a surrogate pair, two
    units. *)

(** A byte [10xxxxxx]: it continues a sequence. *)
Definition is_continuation (b : ascii) : bool :=
  (128 <=? N_of_ascii b)%N && (N_of_ascii b <? 192)%N.

(** A byte [11110xxx]: it starts a sequence of four bytes. *)
Definition is_astral_lead (b : ascii) : bool := (240 <=? N_of_ascii b)%N.

(** [s.length] *)
Fixpoint code_units (s : string) : nat :=
  match s with
  | EmptyString => 0
  | String b rest =>
      ((if is_continuation b then 0 else if is_astral_lead b then 2 else 1)
       + code_units rest)%nat
  end.

(** The first unit of the pair that the four bytes [b0 b1 b2 _] stand
    for, the high surrogate [0xD800 + ((c - 0x10000) >> 10)] of the
    character [c], on its own. *)
Definition high_surrogate (b0 : ascii) (rest : string) : string :=
  match rest with
  | String b1 (String b2 _) =>
      let h := (55232 + (N_of_ascii b0 mod 8) * 256
                + (N_of_ascii b1 mod 64) * 4 + (N_of_ascii b2 mod 64) / 16)%N in
      String (ascii_of_N 237)
        (String (ascii_of_N (128 + (h / 64) mod 64))
           (String (ascii_of_N (128 + h mod 64)) EmptyString))
  | _ => EmptyString
  end.

(** [s.slice(0, n)]: the first [n] code units of [s], all of [s] when it
    has no more.  A pair of which only the first unit fits is cut in
    two, as the source cuts it. *)
Fixpoint slice_to (n : nat) (s : string) : string :=
  match s with
  | EmptyString => EmptyString
  | String b rest =>
      if is_continuation b then String b (slice_to n rest)
      else
        match n with
        | O => EmptyString
        | S n' =>
            if is_astral_lead b then
              match n' with
              | O => high_surrogate b rest
              | S n'' => String b (slice_to n'' rest)
              end
            else String b (slice_to n' rest)
        end
  end.

(** [s.slice(0, 10)] *)
Definition slice10 (s : string) : string := slice_to 10 s.

(** An identifier in a condition ([!savedInvoiceIds[idx]], [r.inserted_id]):
    undefined, null and 0 are falsy. *)
Definition id_truthy (o : option Z) : bool :=
  match o with
  | Some n => negb (n =? 0)
  | None => false
  end.

(** [r.error], [e?.message] in a condition. *)
Definition text_truthy (o : option string) : bool :=
  match o with
  | Some s => nonempty s
  | None => false
  end.

(** [r.is_update] in a condition. *)
Definition flag_truthy (o : option bool) : bool := default false o.

(** ** The persistence payload of a record *)

(** The object literal both commit handlers of every revision build from a
    record [r]; the revisions differ in [averageConfidence] only.
<<
          supplier_id: (r as any).supplier_id ?? undefined,
          supplier_name: r.supplier_name,
          invoice_number: r.invoice_number || r.file_name,
          invoice_date: (r.invoice_date || '').slice(0, 10),
          due_date: r.due_date ? r.due_date.slice(0, 10) : null,
          payment_terms: r.payment_terms ?? null,
          currency: r.currency || 'ILS',
          subtotal: Number(r.subtotal ?? 0),
          vat_amount: Number(r.tax_amount ?? 0),
          total: Number(r.total ?? 0),
          doc_name: r.file_name,
          doc_full_path: r.source_path,
          document_type: r.document_type || 'invoice',
          status: r.status || 'pending',
          ocr_confidence: typeof r.confidence === 'number' ? r.confidence
                                                           : averageConfidence(r.field_confidence),
          ocr_language: r.language,
          ocr_metadata: { field_confidence: r.field_confidence,
                          bounding_boxes: r.bounding_boxes, page_count: r.page_count },
          needs_review: false,
>> *)
Definition toPayload
    (averageConfidence : option (list (string * number)) -> option number)
    (r : InvoiceData) : SaveInvoicePayload.t :=
  {| SaveInvoicePayload.supplier_id := supplier_id r;
     SaveInvoicePayload.supplier_name := supplier_name r;
     SaveInvoicePayload.invoice_number := string_or (invoice_number r) (file_name r);
     SaveInvoicePayload.invoice_date := slice10 (string_or (invoice_date r) EmptyString);
     SaveInvoicePayload.due_date :=
       match due_date r with
       | Some d => if nonempty d then Some (slice10 d) else None
       | None => None
       end;
     SaveInvoicePayload.payment_terms := payment_terms r;
     SaveInvoicePayload.currency := string_or (currency r) "ILS";
     SaveInvoicePayload.subtotal := or_zero (subtotal r);
     SaveInvoicePayload.vat_amount := or_zero (tax_amount r);
     SaveInvoicePayload.total := or_zero (total r);
     SaveInvoicePayload.doc_name := file_name r;
     SaveInvoicePayload.doc_full_path := source_path r;
     SaveInvoicePayload.document_type := string_or (Some (document_type r)) "invoice";
     SaveInvoicePayload.status := string_or (status r) "pending";
     SaveInvoicePayload.ocr_confidence :=
       match confidence r with
       | Some c => Some c
       | None => averageConfidence (field_confidence r)
       end;
     SaveInvoicePayload.ocr_language := language r;
     SaveInvoicePayload.ocr_metadata :=
       {| SaveInvoicePayload.field_confidence := field_confidence r;
          SaveInvoicePayload.bounding_boxes := bounding_boxes r;
          SaveInvoicePayload.page_count := page_count r |};
     SaveInvoicePayload.needs_review := false |}.

(** [vals.reduce((a, b) => a + b, 0)] *)
Definition sum_numbers (vals : list number) : number :=
  foldl (fun a b => (a + b)%float) zero vals.

(** The calls a commit handler makes to its collaborators, in order, each
    with what came back: [inl message] when the call threw an error with
    that message. *)
Inductive call :=
  | CheckInvoiceConflicts (payload : SaveInvoicesBatchRequest.t)
                          (answer : string + ConflictCheckResponse.t)
  | SaveInvoicesBatch (payload : SaveInvoicesBatchRequest.t)
                      (answer : string + SaveInvoicesBatchResponse.t).

Definition is_write (c : call) : bool :=
  match c with
  | SaveInvoicesBatch _ _ => true
  | CheckInvoiceConflicts _ _ => false
  end.

(** [Array.prototype.filter((_, idx) => keep(idx))], from index [idx]. *)
Fixpoint filter_index {A} (keep : nat -> bool) (idx : nat) (items : list A)
    : list A :=
  match items with
  | [] => []
  | x :: rest =>
      if keep idx then x :: filter_index keep (S idx) rest
      else filter_index keep (S idx) rest
  end.

(** [updated[i]] at an index that the response gives: undefined below 0
    and from the length on. *)
Definition at_index (updated : list InvoiceData) (i : Z) : option InvoiceData :=
  if 0 <=? i then updated !! Z.to_nat i else None.

(* ===================================================================== *)
(** * The page of [src/components/UploadPage.tsx] *)
(* ===================================================================== *)

Module Paged.


(** The body of the state update of [handleUpdateResult], at the copy
    [inv] of the edited record:
<<
    (inv as any)[field] = ...value...;
    if (field === 'subtotal') {
      if (typeof inv.subtotal === 'number') {
        inv.tax_amount = round2(inv.subtotal * vatRate);
        inv.total = round2(inv.subtotal + (inv.tax_amount ?? 0));
      }
    } else if (field === 'tax_amount') {
      if (typeof inv.tax_amount === 'number') {
        inv.subtotal = round2(inv.tax_amount / vatRate);
        inv.total = round2((inv.subtotal ?? 0) + inv.tax_amount);
      }
    } else if (field === 'total') {
      if (typeof inv.total === 'number') {
        inv.subtotal = round2(inv.total / (1 + vatRate));
        inv.tax_amount = round2((inv.subtotal ?? 0) * vatRate);
      }
    }
>> *)
Definition reconcile (vatRate : number) (e : edit) (item : InvoiceData)
    : InvoiceData :=
  let inv := assign e item in
  if field_is k_subtotal e then
    match subtotal inv with
    | Some s =>
        let inv := set_tax_amount (round2 (Some (s * vatRate)%float)) inv in
        set_total (round2 (Some (s + or_zero (tax_amount inv))%float)) inv
    | None => inv
    end
  else if field_is k_tax_amount e then
    match tax_amount inv with
    | Some t =>
        let inv := set_subtotal (round2 (Some (t / vatRate)%float)) inv in
        set_total (round2 (Some (or_zero (subtotal inv) + t)%float)) inv
    | None => inv
    end
  else if field_is k_total e then
    match total inv with
    | Some tot =>
        let inv := set_subtotal (round2 (Some (tot / (1 + vatRate))%float)) inv in
        set_tax_amount (round2 (Some (or_zero (subtotal inv) * vatRate)%float)) inv
    | None => inv
    end
  else inv.

Definition handleUpdateResult (vatRate : number) (index : nat) (e : edit)
    (prev : list InvoiceData) : option (list InvoiceData) :=
  update_at index (reconcile vatRate e) prev.

(** ** The paged extraction loop *)

(** The progress line and the error banner. *)
Inductive progress :=
  | Discovering
  | Processing (first last total : Z)
  | CompletedProcessing (total : Z).

Inductive notice :=
  | Message (text : string)
  | CompletedWithErrors (count : nat).

(** The state of the page that the handlers read and set. *)
Record state := {
  results : list InvoiceData;
  loading : bool;
  error : option notice;
  processingProgress : option progress;
  vatRate : number;
  customerId : option Z;
  saving : bool;
  saveResult : option SaveInvoicesBatchResponse.t;
}.

(** [processInvoicesWithLLM], the extraction collaborator: what the
    request numbered [n] (from 0) is answered; [inl message] when the
    request throws an error with that message. *)
Definition server := nat -> ProcessRequest.t -> string + ProcessResponse.t.

(** A mock that answers the requests with the pages of a list, in
    order, and fails once they are used up. *)
Definition scripted (pages : list ProcessResponse.t) : server :=
  fun n _ =>
    match pages !! n with
    | Some page => inr page
    | None => inl "Network Error"%string
    end.

(** The locals of the loop, what it has set of the page state
    ([setResults], [setVatRate], [setProcessingProgress]) and the
    requests sent so far. *)
Record cursor := {
  allResults : list InvoiceData;
  startingPoint : Z;
  totalFiles : Z;
  allErrors : list string;
  shown : list InvoiceData;
  rate : number;
  progressLine : option progress;
  requests : list ProcessRequest.t;
}.

Definition start (vatRate0 : number) : cursor :=
  {| allResults := []; startingPoint := 0; totalFiles := 0; allErrors := [];
     shown := []; rate := vatRate0; progressLine := None; requests := [] |}.

(** One round of the [do { ... } while] body; [inl] when the request
    throws, with the message and the cursor as the catch block finds it.
<<
      if (totalFiles > 0) setProcessingProgress(`Processing ${Math.min(startingPoint + 1, totalFiles)} - ...`);
      else setProcessingProgress('Discovering files...');
      const response = await processInvoicesWithLLM({ path: pathToProcess,
        recursive: false, language_detection: true, starting_point: startingPoint });
      if (totalFiles === 0) totalFiles = response.total_files;
      allResults.push(...response.results);
      setResults([...allResults]);
      if (response.vat_rate !== undefined && response.vat_rate !== null) setVatRate(response.vat_rate);
      if (response.errors.length > 0) allErrors.push(...response.errors);
      startingPoint += response.files_handled;
>> *)
Definition round (srv : server) (pathToProcess : string) (c : cursor)
    : string * cursor + cursor :=
  let line :=
    if 0 <? totalFiles c
    then Processing (Z.min (startingPoint c + 1) (totalFiles c))
                    (Z.min (startingPoint c + 5) (totalFiles c)) (totalFiles c)
    else Discovering in
  let request :=
    {| ProcessRequest.path := pathToProcess;
       ProcessRequest.recursive := false;
       ProcessRequest.language_detection := true;
       ProcessRequest.starting_point := startingPoint c |} in
  let sent := requests c ++ [request] in
  match srv (length (requests c)) request with
  | inl message =>
      inl (message,
           {| allResults := allResults c; startingPoint := startingPoint c;
              totalFiles := totalFiles c; allErrors := allErrors c;
              shown := shown c; rate := rate c;
              progressLine := Some line; requests := sent |})
  | inr response =>
      let accumulated := allResults c ++ ProcessResponse.results response in
      inr {| allResults := accumulated;
             startingPoint := startingPoint c + ProcessResponse.files_handled response;
             totalFiles :=
               if totalFiles c =? 0 then ProcessResponse.total_files response
               else totalFiles c;
             allErrors := allErrors c ++ ProcessResponse.errors response;
             shown := accumulated;
             rate := default (rate c) (ProcessResponse.vat_rate response);
             progressLine := Some line; requests := sent |}
  end.

(** How a run of the loop stands after at most [fuel] requests. *)
Inductive outcome :=
  | Completed (c : cursor)   (* the loop condition failed: the loop is left *)
  | Failed (message : string) (c : cursor)   (* a request threw *)
  | Running (c : cursor).    (* the condition held after the last request *)

(** [do { round } while (startingPoint < totalFiles)] *)
Fixpoint loop (fuel : nat) (srv : server) (pathToProcess : string)
    (c : cursor) : outcome :=
  match fuel with
  | O => Running c
  | S fuel' =>
      match round srv pathToProcess c with
      | inl (message, c') => Failed message c'
      | inr c' =>
          if startingPoint c' <? totalFiles c'
          then loop fuel' srv pathToProcess c'
          else Completed c'
      end
  end.

(** The selection resolved to the path to process:
<<
    if (files && files.length > 0) pathToProcess = await uploadFilesToS3(files, setUploadProgress);
    else if (localPath) pathToProcess = localPath;
    else throw new Error('No files or path provided');
>>
    [uploadFilesToS3] is the upload collaborator, [inl] when it throws. *)
Definition resolve (uploadFilesToS3 : list string -> string + string)
    (files : list string) (localPath : option string) : string + string :=
  match files with
  | _ :: _ => uploadFilesToS3 files
  | [] =>
      match localPath with
      | Some p => if nonempty p then inr p
                  else inl "No files or path provided"%string
      | None => inl "No files or path provided"%string
      end
  end.

(** [handleFilesSelected], with [fuel] requests allowed; [None] while the
    loop is still running after them.  (The upload progress list and the
    timer that clears the progress line three seconds later are left
    out.) *)
Definition handleFilesSelected (fuel : nat) (srv : server)
    (uploadFilesToS3 : list string -> string + string)
    (files : list string) (localPath : option string) (st : state)
    : option state :=
  let finish (shown : list InvoiceData) (rate : number)
             (err : option notice) (line : option progress) :=
    {| results := shown; loading := false; error := err;
       processingProgress := line; vatRate := rate;
       customerId := customerId st; saving := saving st;
       saveResult := saveResult st |} in
  match resolve uploadFilesToS3 files localPath with
  | inl message => Some (finish [] (vatRate st) (Some (Message message)) None)
  | inr pathToProcess =>
      match loop fuel srv pathToProcess (start (vatRate st)) with
      | Running _ => None
      | Failed message c =>
          Some (finish (shown c) (rate c) (Some (Message message)) (progressLine c))
      | Completed c =>
          Some (finish (shown c) (rate c)
                  match allErrors c with
                  | [] => None
                  | _ :: _ => Some (CompletedWithErrors (length (allErrors c)))
                  end
                  (Some (CompletedProcessing (totalFiles c))))
      end
  end.

(** ** The commit handlers *)

(** [averageConfidence]: undefined without scores, else their mean
    rounded to three decimals. *)
Definition averageConfidence (conf : option (list (string * number)))
    : option number :=
  match conf with
  | None => None
  | Some entries =>
      let vals := entries.*2 in
      match vals with
      | [] => None
      | _ :: _ =>
          let avg := (sum_numbers vals / of_integer (Z.of_nat (length vals)))%float in
          Some (Math_round (avg * 1000) / 1000)%float
      end
  end.

(** [saveInvoicesBatch], the persistence collaborator. *)
Definition writer :=
  SaveInvoicesBatchRequest.t -> string + SaveInvoicesBatchResponse.t.

(** [handleSaveSingle]: the error it throws, if any, the state and the
    calls made.
<<
  if (!customerId) throw new Error('Customer ID is required');
  const r = results[index];
  if (!r) throw new Error('Invoice not found');
  const payload = { customer_id: Number(customerId), invoices: [{ ... }] };
  const resp = await saveInvoicesBatch(payload);
  if (resp?.results?.[0]?.error) throw new Error(resp.results[0].error);
  if (resp?.results?.[0]?.supplier_id != null) {
    setResults(prev => { const updated = [...prev];
      (updated[index] as any).supplier_id = resp.results[0].supplier_id;
      return updated; });
  }
>> *)
Definition handleSaveSingle (saveInvoicesBatch : writer) (index : nat)
    (st : state) : option string * state * list call :=
  if negb (id_truthy (customerId st)) then
    (Some "Customer ID is required"%string, st, [])
  else
    match results st !! index with
    | None => (Some "Invoice not found"%string, st, [])
    | Some r =>
        let payload :=
          {| SaveInvoicesBatchRequest.customer_id := default 0 (customerId st);
             SaveInvoicesBatchRequest.invoices := [toPayload averageConfidence r] |} in
        let answer := saveInvoicesBatch payload in
        let calls := [SaveInvoicesBatch payload answer] in
        match answer with
        | inl message => (Some message, st, calls)
        | inr resp =>
            match head (SaveInvoicesBatchResponse.results resp) with
            | None => (None, st, calls)
            | Some row =>
                if text_truthy (SaveInvoicesBatchResult.error row) then
                  (SaveInvoicesBatchResult.error row, st, calls)
                else
                  match SaveInvoicesBatchResult.supplier_id row with
                  | Some sid =>
                      (None,
                       {| results := alter (set_supplier_id (Some sid)) index (results st);
                          loading := loading st; error := error st;
                          processingProgress := processingProgress st;
                          vatRate := vatRate st; customerId := customerId st;
                          saving := saving st; saveResult := saveResult st |},
                       calls)
                  | None => (None, st, calls)
                  end
            end
        end
    end.

(** The merge of the returned supplier ids, one row of the response:
<<
        resp.results.forEach(r => {
          if (r.supplier_id != null && updated[r.index]) {
            (updated[r.index] as any).supplier_id = r.supplier_id;
          }
        });
>> *)
Definition merge_row (updated : list InvoiceData)
    (r : SaveInvoicesBatchResult.t) : list InvoiceData :=
  match SaveInvoicesBatchResult.supplier_id r,
        at_index updated (SaveInvoicesBatchResult.index r) with
  | Some sid, Some inv =>
      <[Z.to_nat (SaveInvoicesBatchResult.index r) := set_supplier_id (Some sid) inv]>
        updated
  | _, _ => updated
  end.

(** [setResults(prev => { const updated = [...prev];
    resp.results.forEach(...); return updated; })] *)
Definition mergeSupplierIds (rows : list SaveInvoicesBatchResult.t)
    (prev : list InvoiceData) : list InvoiceData :=
  foldl merge_row prev rows.

(** [handleSaveAll]:
<<
  if (!customerId || results.length === 0) return;
  setSaving(true); setError(null); setSaveResult(null);
  try {
    const payload = { customer_id: Number(customerId), invoices: results.map((r) => ({ ... })) };
    const resp = await saveInvoicesBatch(payload);
    setSaveResult(resp);
    if (resp?.results?.length) { setResults(prev => ...merge...); }
  } catch (e: any) {
    setError(e?.message || 'Failed to save invoices');
  } finally {
    setSaving(false);
  }
>> *)
Definition handleSaveAll (saveInvoicesBatch : writer) (st : state)
    : state * list call :=
  if negb (id_truthy (customerId st)) || bool_decide (results st = []) then
    (st, [])
  else
    let payload :=
      {| SaveInvoicesBatchRequest.customer_id := default 0 (customerId st);
         SaveInvoicesBatchRequest.invoices :=
           toPayload averageConfidence <$> results st |} in
    let answer := saveInvoicesBatch payload in
    let calls := [SaveInvoicesBatch payload answer] in
    match answer with
    | inl message =>
        ({| results := results st; loading := loading st;
            error := Some (Message (string_or (Some message) "Failed to save invoices"));
            processingProgress := processingProgress st;
            vatRate := vatRate st; customerId := customerId st;
            saving := false; saveResult := None |},
         calls)
    | inr resp =>
        ({| results :=
              mergeSupplierIds (SaveInvoicesBatchResponse.results resp) (results st);
            loading := loading st; error := None;
            processingProgress := processingProgress st;
            vatRate := vatRate st; customerId := customerId st;
            saving := false; saveResult := Some resp |},
         calls)
    end.

End Paged.

(* ===================================================================== *)
(** * The page of the revision with the conflict gate *)
(* ===================================================================== *)

Module Gated.


(** [x || 0] at an optional number. *)
Definition or_else_zero (o : option number) : number :=
  match o with
  | Some x => if truthy x then x else zero
  | None => zero
  end.

(** The body of the state update of [handleUpdateResult]:
<<
    (inv as any)[field] = ...value...;
    if (field === 'subtotal' || field === 'tax_amount') {
      const sub = typeof updated[index].subtotal === 'number' ? updated[index].subtotal : 0;
      const tax = typeof updated[index].tax_amount === 'number' ? updated[index].tax_amount : 0;
      updated[index].total = round2(sub + tax);
    }
    if (field === 'total' || field === 'tax_amount') {
      const total = typeof updated[index].total === 'number' ? updated[index].total : 0;
      const tax = typeof updated[index].tax_amount === 'number' ? updated[index].tax_amount : 0;
      updated[index].subtotal = round2(total - tax);
    }
    if (field === 'total' && !updated[index].tax_amount) {
      const total = typeof updated[index].total === 'number' ? updated[index].total : 0;
      const vatRateCalc = vatRate || 0;
      updated[index].subtotal = round2(total / (1 + vatRateCalc));
      updated[index].tax_amount = round2(total - (updated[index].subtotal || 0));
    }
>> *)
Definition reconcile (vatRate : number) (e : edit) (item : InvoiceData)
    : InvoiceData :=
  let inv := assign e item in
  let inv :=
    if field_is k_subtotal e || field_is k_tax_amount e then
      let sub := or_zero (subtotal inv) in
      let tax := or_zero (tax_amount inv) in
      set_total (round2 (Some (sub + tax)%float)) inv
    else inv in
  let inv :=
    if field_is k_total e || field_is k_tax_amount e then
      let tot := or_zero (total inv) in
      let tax := or_zero (tax_amount inv) in
      set_subtotal (round2 (Some (tot - tax)%float)) inv
    else inv in
  if field_is k_total e && falsy (tax_amount inv) then
    let tot := or_zero (total inv) in
    let vatRateCalc := if truthy vatRate then vatRate else zero in
    let inv := set_subtotal (round2 (Some (tot / (1 + vatRateCalc))%float)) inv in
    set_tax_amount (round2 (Some (tot - or_else_zero (subtotal inv))%float)) inv
  else inv.

Definition handleUpdateResult (vatRate : number) (index : nat) (e : edit)
    (prev : list InvoiceData) : option (list InvoiceData) :=
  update_at index (reconcile vatRate e) prev.

(** ** The commit handlers *)

(** [averageConfidence]: 0 without scores, else their mean. *)
Definition averageConfidence (fieldConf : option (list (string * number)))
    : option number :=
  match fieldConf with
  | None => Some zero
  | Some entries =>
      let values := entries.*2 in
      match values with
      | [] => Some zero
      | _ :: _ =>
          Some (sum_numbers values / of_integer (Z.of_nat (length values)))%float
      end
  end.

(** The error banner and the alert. *)
Inductive notice :=
  | Message (text : string)
  | CompletedWithErrors (errorCount insertCount updateCount : nat)
  | SuccessfullySaved (insertCount updateCount : nat).

(** The state of the page that the commit handlers read and set;
    [storedSelection] tells whether the session storage holds the item
    [uploadPage_selection], [alerts] lists the alerts shown. *)
Record state := {
  selectedFiles : list string;
  results : list InvoiceData;
  error : option notice;
  savedInvoiceIds : gmap nat Z;
  vatRate : number;
  customerId : option Z;
  saving : bool;
  showConflictModal : bool;
  conflicts : option ConflictCheckResponse.t;
  storedSelection : bool;
  alerts : list notice;
}.

(** The collaborators: [checkInvoiceConflicts] and [saveInvoicesBatch]. *)
Record collaborators := {
  checkInvoiceConflicts :
    SaveInvoicesBatchRequest.t -> string + ConflictCheckResponse.t;
  saveInvoicesBatch :
    SaveInvoicesBatchRequest.t -> string + SaveInvoicesBatchResponse.t;
}.

(** The state setters of the page. *)
Definition setError (v : option notice) (st : state) : state :=
  let 'Build_state a b _ d e f g h i j k := st in Build_state a b v d e f g h i j k.
Definition setSaving (v : bool) (st : state) : state :=
  let 'Build_state a b c d e f _ h i j k := st in Build_state a b c d e f v h i j k.
Definition setResults (v : list InvoiceData) (st : state) : state :=
  let 'Build_state a _ c d e f g h i j k := st in Build_state a v c d e f g h i j k.
Definition setSelectedFiles (v : list string) (st : state) : state :=
  let 'Build_state _ b c d e f g h i j k := st in Build_state v b c d e f g h i j k.
Definition setSavedInvoiceIds (v : gmap nat Z) (st : state) : state :=
  let 'Build_state a b c _ e f g h i j k := st in Build_state a b c v e f g h i j k.
Definition setShowConflictModal (v : bool) (st : state) : state :=
  let 'Build_state a b c d e f g _ i j k := st in Build_state a b c d e f g v i j k.
Definition setConflicts (v : option ConflictCheckResponse.t) (st : state) : state :=
  let 'Build_state a b c d e f g h _ j k := st in Build_state a b c d e f g h v j k.
Definition removeStoredSelection (st : state) : state :=
  let 'Build_state a b c d e f g h i _ k := st in Build_state a b c d e f g h i false k.
Definition alert (v : notice) (st : state) : state :=
  let 'Build_state a b c d e f g h i j k := st in
  Build_state a b c d e f g h i j (k ++ [v]).

(** [catch (e: any) { setError(e?.message || fallback) } finally { setSaving(false) }] *)
Definition caught (message fallback : string) (st : state) : state :=
  setSaving false (setError (Some (Message (string_or (Some message) fallback))) st).

(** [handleSaveSingle]: the state it leaves and the calls it made.
<<
  if (!customerId) { setError('Please enter a customer ID'); return; }
  const r = results[index];
  if (!r) return;
  setSaving(true); setError(null);
  try {
    const payload = { customer_id: Number(customerId), invoices: [{ ... }] };
    // Check for conflicts first
    const conflictCheck = await checkInvoiceConflicts(payload);
    if (conflictCheck.has_conflicts) {
      setConflicts(conflictCheck); setShowConflictModal(true); setSaving(false);
      return;
    }
    const resp = await saveInvoicesBatch(payload);
    if (resp?.results?.[0]?.error) throw new Error(resp.results[0].error);
    if (resp?.results?.[0]?.inserted_id != null) {
      setSavedInvoiceIds(prev => ({ ...prev, [index]: resp.results[0].inserted_id! }));
      setResults(prev => { const updated = [...prev];
        if (resp.results[0].supplier_id != null)
          (updated[index] as any).supplier_id = resp.results[0].supplier_id;
        return updated; });
    }
  } catch (e: any) { setError(e?.message || 'Failed to save invoice'); }
  finally { setSaving(false); }
>> *)
Definition handleSaveSingle (io : collaborators) (index : nat) (st : state)
    : state * list call :=
  if negb (id_truthy (customerId st)) then
    (setError (Some (Message "Please enter a customer ID")) st, [])
  else
    match results st !! index with
    | None => (st, [])
    | Some r =>
        let st := setError None (setSaving true st) in
        let payload :=
          {| SaveInvoicesBatchRequest.customer_id := default 0 (customerId st);
             SaveInvoicesBatchRequest.invoices := [toPayload averageConfidence r] |} in
        let checked := checkInvoiceConflicts io payload in
        let gate := [CheckInvoiceConflicts payload checked] in
        match checked with
        | inl message => (caught message "Failed to save invoice" st, gate)
        | inr conflictCheck =>
            if ConflictCheckResponse.has_conflicts conflictCheck then
              (setSaving false
                 (setShowConflictModal true (setConflicts (Some conflictCheck) st)),
               gate)
            else
              let answer := saveInvoicesBatch io payload in
              let calls := gate ++ [SaveInvoicesBatch payload answer] in
              match answer with
              | inl message => (caught message "Failed to save invoice" st, calls)
              | inr resp =>
                  match head (SaveInvoicesBatchResponse.results resp) with
                  | None => (setSaving false st, calls)
                  | Some row =>
                      if text_truthy (SaveInvoicesBatchResult.error row) then
                        (caught (default EmptyString (SaveInvoicesBatchResult.error row))
                           "Failed to save invoice" st, calls)
                      else
                        match SaveInvoicesBatchResult.inserted_id row with
                        | None => (setSaving false st, calls)
                        | Some id =>
                            let merged :=
                              match SaveInvoicesBatchResult.supplier_id row with
                              | Some sid =>
                                  alter (set_supplier_id (Some sid)) index (results st)
                              | None => results st
                              end in
                            (setSaving false
                               (setResults merged
                                  (setSavedInvoiceIds
                                     (<[index := id]> (savedInvoiceIds st)) st)),
                             calls)
                        end
                  end
              end
        end
    end.

(** [!savedInvoiceIds[idx]] *)
Definition unsaved (savedInvoiceIds : gmap nat Z) (idx : nat) : bool :=
  negb (id_truthy (savedInvoiceIds !! idx)).

(** The counts [handleSaveAll] takes of the rows of a write response. *)
Definition insertCount (rows : list SaveInvoicesBatchResult.t) : nat :=
  length (List.filter
            (fun r => negb (flag_truthy (SaveInvoicesBatchResult.is_update r))
                      && id_truthy (SaveInvoicesBatchResult.inserted_id r)) rows).
Definition updateCount (rows : list SaveInvoicesBatchResult.t) : nat :=
  length (List.filter
            (fun r => flag_truthy (SaveInvoicesBatchResult.is_update r)) rows).
Definition errorCount (rows : list SaveInvoicesBatchResult.t) : nat :=
  length (List.filter
            (fun r => text_truthy (SaveInvoicesBatchResult.error r)) rows).

(** The part of [handleSaveAll] from the write on:
<<
    const resp = await saveInvoicesBatch(payload);
    if (resp?.results?.length) {
      const insertCount = resp.results.filter(r => !r.is_update && r.inserted_id).length;
      const updateCount = resp.results.filter(r => r.is_update).length;
      const errorCount = resp.results.filter(r => r.error).length;
      if (errorCount === 0) {
        // Success - clear everything and reset
        setResults([]); setSelectedFiles([]); setSavedInvoiceIds({});
        sessionStorage.removeItem('uploadPage_selection');
        setError(null);
        alert(`Successfully saved! ${insertCount} inserted, ${updateCount} updated.`);
      } else {
        setError(`Completed with ${errorCount} error(s). ${insertCount} inserted, ${updateCount} updated.`);
      }
    }
>> *)
Definition write_all (io : collaborators) (payload : SaveInvoicesBatchRequest.t)
    (gate : list call) (st : state) : state * list call :=
  let answer := saveInvoicesBatch io payload in
  let calls := gate ++ [SaveInvoicesBatch payload answer] in
  match answer with
  | inl message => (caught message "Failed to save invoices" st, calls)
  | inr resp =>
      let rows := SaveInvoicesBatchResponse.results resp in
      match rows with
      | [] => (setSaving false st, calls)
      | _ :: _ =>
          if (errorCount rows =? 0)%nat then
            (setSaving false
               (alert (SuccessfullySaved (insertCount rows) (updateCount rows))
                  (setError None
                     (removeStoredSelection
                        (setSavedInvoiceIds ∅
                           (setSelectedFiles [] (setResults [] st)))))),
             calls)
          else
            (setSaving false
               (setError
                  (Some (CompletedWithErrors (errorCount rows) (insertCount rows)
                           (updateCount rows))) st),
             calls)
      end
  end.

(** [handleSaveAll]: the state it leaves and the calls it made.
<<
  if (!customerId || results.length === 0) return;
  setSaving(true); setError(null);
  try {
    const payload = { customer_id: Number(customerId), invoices: results.map((r) => ({ ... })) };
    // Check for conflicts first (only for unsaved invoices)
    const unsavedInvoices = results.filter((_, idx) => !savedInvoiceIds[idx]);
    if (unsavedInvoices.length > 0) {
      const conflictPayload = { customer_id: Number(customerId),
        invoices: payload.invoices.filter((_, idx) => !savedInvoiceIds[idx]) };
      const conflictCheck = await checkInvoiceConflicts(conflictPayload);
      if (conflictCheck.has_conflicts) {
        setConflicts(conflictCheck); setShowConflictModal(true); setSaving(false);
        return;
      }
    }
    ... the write ...
  } catch (e: any) { setError(e?.message || 'Failed to save invoices'); }
  finally { setSaving(false); }
>> *)
Definition handleSaveAll (io : collaborators) (st : state) : state * list call :=
  if negb (id_truthy (customerId st)) || bool_decide (results st = []) then
    (st, [])
  else
    let st := setError None (setSaving true st) in
    let payload :=
      {| SaveInvoicesBatchRequest.customer_id := default 0 (customerId st);
         SaveInvoicesBatchRequest.invoices :=
           toPayload averageConfidence <$> results st |} in
    let unsavedInvoices :=
      filter_index (unsaved (savedInvoiceIds st)) 0 (results st) in
    match unsavedInvoices with
    | [] => write_all io payload [] st
    | _ :: _ =>
        let conflictPayload :=
          {| SaveInvoicesBatchRequest.customer_id := default 0 (customerId st);
             SaveInvoicesBatchRequest.invoices :=
               filter_index (unsaved (savedInvoiceIds st)) 0
                 (SaveInvoicesBatchRequest.invoices payload) |} in
        let checked := checkInvoiceConflicts io conflictPayload in
        let gate := [CheckInvoiceConflicts conflictPayload checked] in
        match checked with
        | inl message => (caught message "Failed to save invoices" st, gate)
        | inr conflictCheck =>
            if ConflictCheckResponse.has_conflicts conflictCheck then
              (setSaving false
                 (setShowConflictModal true (setConflicts (Some conflictCheck) st)),
               gate)
            else write_all io payload gate st
        end
    end.

(** A commit attempt: [handleSaveSingle] at an index, or [handleSaveAll]. *)
Inductive attempt :=
  | SaveSingle (index : nat)
  | SaveAll.

Definition commit (io : collaborators) (a : attempt) (st : state)
    : state * list call :=
  match a with
  | SaveSingle index => handleSaveSingle io index st
  | SaveAll => handleSaveAll io st
  end.

End Gated.


(* ===================================================================== *)
(** * The properties, as predicates on records and runs *)
(* ===================================================================== *)

(** ** The three-way invariant *)


(** The three amounts of a record. *)
Definition amounts (inv : InvoiceData)
    : option number * option number * option number :=
  (subtotal inv, tax_amount inv, total inv).





(** An edit of subtotal, tax or total. *)
Definition money_edit (e : edit) : bool :=
  field_is k_subtotal e || field_is k_tax_amount e || field_is k_total e.

(** ** Sample records *)

(** A record as the extraction service returns it, without amounts. *)
Definition sample (name : string) : InvoiceData :=
  {| file_name := name; source_path := "uploads/batch-1/" ++ name;
     file_url := None; language := "en"; document_type := "invoice";
     supplier_name := Some "Acme Ltd"%string; invoice_number := Some "INV-1"%string;
     invoice_date := Some "2025-01-31T00:00:00"%string; due_date := None;
     payment_terms := None; status := None; currency := None;
     subtotal := None; tax_amount := None; total := None;
     line_items := None; confidence := None; bounding_boxes := None;
     page_count := None; field_confidence := None; supplier_id := None |}.

Definition with_amounts (s t tot : number) (inv : InvoiceData) : InvoiceData :=
  set_total (Some tot) (set_tax_amount (Some t) (set_subtotal (Some s) inv)).

(** ** Runs of the extraction loop *)

(** The files the pages of a list cover together. *)
Definition files_covered (pages : list ProcessResponse.t) : Z :=
  foldr Z.add 0 (ProcessResponse.files_handled <$> pages).

(** A page that covers at least one file and reports [T] files in all. *)
Definition advancing (T : Z) (page : ProcessResponse.t) : Prop :=
  1 <= ProcessResponse.files_handled page /\ ProcessResponse.total_files page = T.

(** A page that covers no file, of [T] files in all. *)
Definition stalling (T : Z) (page : ProcessResponse.t) : Prop :=
  ProcessResponse.files_handled page = 0 /\ ProcessResponse.total_files page = T.

Definition still_running (o : Paged.outcome) : bool :=
  match o with
  | Paged.Running _ => true
  | _ => false
  end.

(** However many requests are allowed, the loop is still running after
    them. *)
Definition never_leaves_loop (srv : Paged.server) (pathToProcess : string)
    (vatRate0 : number) : Prop :=
  forall fuel,
    still_running (Paged.loop fuel srv pathToProcess (Paged.start vatRate0)) = true.

(** The two pages of the scenario of the specification. *)
Definition two_pages : list ProcessResponse.t :=
  [ {| ProcessResponse.results := [sample "A.pdf"; sample "B.pdf"];
       ProcessResponse.errors := [];
       ProcessResponse.total_files := 5;
       ProcessResponse.files_handled := 2;
       ProcessResponse.vat_rate := None |};
    {| ProcessResponse.results := [sample "C.pdf"; sample "D.pdf"; sample "E.pdf"];
       ProcessResponse.errors := ["E failed OCR"%string];
       ProcessResponse.total_files := 5;
       ProcessResponse.files_handled := 3;
       ProcessResponse.vat_rate := None |} ].

(** A server that answers every request with an empty page of three
    files, none of them handled. *)
Definition stalled : Paged.server :=
  fun _ _ =>
    inr {| ProcessResponse.results := [];
           ProcessResponse.errors := [];
           ProcessResponse.total_files := 3;
           ProcessResponse.files_handled := 0;
           ProcessResponse.vat_rate := None |}.

(** ** The merge of supplier ids *)

(** The supplier id the rows of a response give for the record at index
    [i]: that of the last row addressed to [i] that carries one. *)
Definition supplier_for (i : nat) (rows : list SaveInvoicesBatchResult.t)
    : option Z :=
  foldl (fun found r =>
           if bool_decide (SaveInvoicesBatchResult.index r = Z.of_nat i)
           then match SaveInvoicesBatchResult.supplier_id r with
                | Some sid => Some sid
                | None => found
                end
           else found)
        None rows.

(** The supplier id of a record after the merge, given what the rows
    give for it. *)
Definition merged_supplier (given : option Z) (inv : InvoiceData) : option Z :=
  match given with
  | Some sid => Some sid
  | None => supplier_id inv
  end.

(** A record with its supplier id erased: what is left are all its other
    fields. *)
Definition without_supplier (inv : InvoiceData) : InvoiceData :=
  set_supplier_id None inv.

(** ** Commit attempts *)

(** A conflict check of the attempt answered [has_conflicts: true]. *)
Definition conflict_reported (calls : list call) : bool :=
  existsb (fun c =>
             match c with
             | CheckInvoiceConflicts _ (inr answer) =>
                 ConflictCheckResponse.has_conflicts answer
             | _ => false
             end) calls.

(** The attempt called [saveInvoicesBatch]. *)
Definition wrote (calls : list call) : bool := existsb is_write calls.

(** The invoices of each conflict check of the attempt. *)
Definition checked_invoices (calls : list call) : list (list SaveInvoicePayload.t) :=
  omap (fun c =>
          match c with
          | CheckInvoiceConflicts payload _ =>
              Some (SaveInvoicesBatchRequest.invoices payload)
          | SaveInvoicesBatch _ _ => None
          end) calls.

(** The rows of a write response after which [handleSaveAll] clears the
    session: at least one row, and no row with an error. *)
Definition clears_session (rows : list SaveInvoicesBatchResult.t) : bool :=
  match rows with
  | [] => false
  | _ :: _ => (Gated.errorCount rows =? 0)%nat
  end.

(** A session of two records for the customer 7, with the given persisted
    identifiers. *)
Definition session_two (saved : gmap nat Z) : Gated.state :=
  {| Gated.selectedFiles := ["A.pdf"; "B.pdf"]%string;
     Gated.results := [sample "A.pdf"; sample "B.pdf"];
     Gated.error := None;
     Gated.savedInvoiceIds := saved;
     Gated.vatRate := 0.18%float;
     Gated.customerId := Some 7;
     Gated.saving := false;
     Gated.showConflictModal := false;
     Gated.conflicts := None;
     Gated.storedSelection := true;
     Gated.alerts := [] |}.

Definition row (index : Z) (inserted : option Z) (failure : option string)
    : SaveInvoicesBatchResult.t :=
  {| SaveInvoicesBatchResult.index := index;
     SaveInvoicesBatchResult.invoice_number := "INV-1";
     SaveInvoicesBatchResult.inserted_id := inserted;
     SaveInvoicesBatchResult.supplier_id := None;
     SaveInvoicesBatchResult.supplier_created := None;
     SaveInvoicesBatchResult.is_update := None;
     SaveInvoicesBatchResult.conflict := None;
     SaveInvoicesBatchResult.error := failure |}.

Definition no_conflicts : ConflictCheckResponse.t :=
  {| ConflictCheckResponse.has_conflicts := false;
     ConflictCheckResponse.conflicts := [] |}.

Definition duplicate_invoice : ConflictCheckResponse.t :=
  {| ConflictCheckResponse.has_conflicts := true;
     ConflictCheckResponse.conflicts :=
       [ {| ConflictCheckResponse.invoice_number := "INV-1";
            ConflictCheckResponse.type := "duplicate";
            ConflictCheckResponse.message := "Invoice INV-1 already exists" |} ] |}.

(** Collaborators that answer every check and every write the same. *)
Definition answering (gate : ConflictCheckResponse.t)
    (rows : list SaveInvoicesBatchResult.t) : Gated.collaborators :=
  {| Gated.checkInvoiceConflicts := fun _ => inr gate;
     Gated.saveInvoicesBatch :=
       fun _ => inr {| SaveInvoicesBatchResponse.results := rows |} |}.

(* ===================================================================== *)
(** * Further parts of the page, and predicates on them *)
(* ===================================================================== *)

(** A record with its three amounts erased: what is left are all its
    other fields. *)
Definition without_amounts (inv : InvoiceData) : InvoiceData :=
  set_total None (set_tax_amount None (set_subtotal None inv)).

(** ** The extraction loop *)

(** The request the loop sends from the starting point [sp]. *)
Definition request_from (pathToProcess : string) (sp : Z) : ProcessRequest.t :=
  {| ProcessRequest.path := pathToProcess;
     ProcessRequest.recursive := false;
     ProcessRequest.language_detection := true;
     ProcessRequest.starting_point := sp |}.

(** The starting points at which the pages of a list are asked for, the
    first one at [from]: each page moves the next one on by the files it
    handled. *)
Fixpoint starting_points (from : Z) (pages : list ProcessResponse.t) : list Z :=
  match pages with
  | [] => []
  | page :: rest =>
      from :: starting_points (from + ProcessResponse.files_handled page) rest
  end.

(** The rate after the pages of a list: the last one a page reported, the
    rate before them if none did. *)
Definition reported_rate (vatRate0 : number) (pages : list ProcessResponse.t)
    : number :=
  foldl (fun rate page => default rate (ProcessResponse.vat_rate page))
        vatRate0 pages.

(** The cursor once a page has come in, from the cursor [c] that asked
    for it. *)
Definition received (pathToProcess : string) (c : Paged.cursor)
    (page : ProcessResponse.t) : Paged.cursor :=
  {| Paged.allResults := Paged.allResults c ++ ProcessResponse.results page;
     Paged.startingPoint := Paged.startingPoint c + ProcessResponse.files_handled page;
     Paged.totalFiles :=
       if Paged.totalFiles c =? 0 then ProcessResponse.total_files page
       else Paged.totalFiles c;
     Paged.allErrors := Paged.allErrors c ++ ProcessResponse.errors page;
     Paged.shown := Paged.allResults c ++ ProcessResponse.results page;
     Paged.rate := default (Paged.rate c) (ProcessResponse.vat_rate page);
     Paged.progressLine :=
       Some (if 0 <? Paged.totalFiles c
             then Paged.Processing
                    (Z.min (Paged.startingPoint c + 1) (Paged.totalFiles c))
                    (Z.min (Paged.startingPoint c + 5) (Paged.totalFiles c))
                    (Paged.totalFiles c)
             else Paged.Discovering);
     Paged.requests :=
       Paged.requests c ++ [request_from pathToProcess (Paged.startingPoint c)] |}.

(** A server that answers the first requests with the pages of a list and
    throws [message] at every request after them. *)
Definition failing_after (pages : list ProcessResponse.t) (message : string)
    : Paged.server :=
  fun n _ =>
    match pages !! n with
    | Some page => inr page
    | None => inl message
    end.

(* ===================================================================== *)
(** * The upload service ([services/s3Upload.ts]) *)
(* ===================================================================== *)

(** The revision of [uploadFilesToS3] that [UploadPage.tsx] calls: it
    uploads the files one by one through [uploadFile] and returns the
    upload directory of the first. *)
Module Uploads.

Inductive state := pending | uploading | completed | failed.

Record UploadProgress := {
  filename : string;
  status : state;
  error : option string;
}.

Record UploadFileResponse := {
  success : bool;
  stored_filename : string;
  path : string;
  upload_dir : string;
  original_filename : string;
}.

(** [uploadFile], the collaborator, at the name of a file: [inl message]
    when it throws an error with that message. *)
Definition uploader := string -> string + UploadFileResponse.

(** [progress[i].status = ...] *)
Definition set_status (s : state) (p : UploadProgress) : UploadProgress :=
  {| filename := filename p; status := s; error := error p |}.

(** The catch block: [progress[i].status = 'error'; progress[i].error = message]. *)
Definition set_failed (message : string) (p : UploadProgress) : UploadProgress :=
  {| filename := filename p; status := failed; error := Some message |}.

(** What a run returns: the directory or the message of the error thrown,
    the progress list as it stands, and the files [uploadFile] was called
    with, in order. *)
Definition run : Type := (string + string) * list UploadProgress * list string.

(** The [for] loop from the index [i], over the files still to upload:
<<
    try {
      progress[i].status = 'uploading';
      const uploadResponse = await uploadFile(file);
      if (!uploadResponse.success) throw new Error('Upload failed');
      if (i === 0) uploadDir = uploadResponse.upload_dir;
      progress[i].status = 'completed';
    } catch (error) {
      progress[i].status = 'error';
      progress[i].error = error instanceof Error ? error.message : 'Upload failed';
      throw error;
    }
>> *)
Fixpoint upload_from (uploadFile : uploader) (i : nat) (rest : list string)
    (uploadDir : string) (progress : list UploadProgress) (calls : list string)
    : run :=
  match rest with
  | [] => (inr uploadDir, progress, calls)
  | file :: rest' =>
      let progress := alter (set_status uploading) i progress in
      match uploadFile file with
      | inl message => (inl message, alter (set_failed message) i progress, calls ++ [file])
      | inr uploadResponse =>
          if success uploadResponse then
            upload_from uploadFile (S i) rest'
              (if bool_decide (i = 0%nat) then upload_dir uploadResponse else uploadDir)
              (alter (set_status completed) i progress) (calls ++ [file])
          else
            (inl "Upload failed"%string,
             alter (set_failed "Upload failed") i progress, calls ++ [file])
      end
  end.

(** [fileArray.map(f => ({ filename: f.name, status: 'pending' }))] *)
Definition waiting (file : string) : UploadProgress :=
  {| filename := file; status := pending; error := None |}.

Definition uploadFilesToS3 (uploadFile : uploader) (files : list string) : run :=
  upload_from uploadFile 0 files EmptyString (waiting <$> files) [].

(** The upload as [handleFilesSelected] sees it: the directory, or the
    error thrown. *)
Definition outcome (uploadFile : uploader) (files : list string) : string + string :=
  (uploadFilesToS3 uploadFile files).1.1.

(** A file whose upload is answered with success. *)
Definition accepted (uploadFile : uploader) (file : string) : Prop :=
  exists response, uploadFile file = inr response /\ success response = true.

(** A file whose upload fails with [message]: [uploadFile] throws it, or
    answers without success and the message is ['Upload failed']. *)
Definition refused (uploadFile : uploader) (file message : string) : Prop :=
  uploadFile file = inl message \/
  (exists response, uploadFile file = inr response /\ success response = false) /\
  message = "Upload failed"%string.

(** The entry of a file that has been uploaded, and of one that failed. *)
Definition done (file : string) : UploadProgress :=
  {| filename := file; status := completed; error := None |}.

Definition broken (message file : string) : UploadProgress :=
  {| filename := file; status := failed; error := Some message |}.

(** The directory that the upload of a list of files returns when all are
    accepted: that of the first file, the empty string without files. *)
Definition directory_of (uploadFile : uploader) (files : list string) : string :=
  match files with
  | [] => EmptyString
  | first :: _ =>
      match uploadFile first with
      | inr response => upload_dir response
      | inl _ => EmptyString
      end
  end.

End Uploads.

(** An [uploadFile] that stores every file in one directory, and one that
    does so for every file but [bad], at which it throws. *)
Definition storing (directory : string) : Uploads.uploader :=
  fun file =>
    inr {| Uploads.success := true; Uploads.stored_filename := file;
           Uploads.path := directory ++ "/" ++ file;
           Uploads.upload_dir := directory;
           Uploads.original_filename := file |}.

Definition storing_but (directory bad message : string) : Uploads.uploader :=
  fun file =>
    if bool_decide (file = bad) then inl message else storing directory file.

(** ** Commit attempts *)

(** A write of the attempt was answered (it did not throw). *)
Definition write_answered (calls : list call) : bool :=
  existsb (fun c =>
             match c with
             | SaveInvoicesBatch _ (inr _) => true
             | _ => false
             end) calls.

(** The attempt consulted the conflict check. *)
Definition checked (calls : list call) : bool :=
  existsb (fun c => negb (is_write c)) calls.

(** ** The payload *)

(** A date of the payload: at most ten code units. *)
Definition short_date (d : string) : bool := (code_units d <=? 10)%nat.

(* ===================================================================== *)
(** * The file handlers of the later revision of [UploadPage.tsx] *)
(* ===================================================================== *)

Module Intake.

Inductive notice :=
  | Message (text : string)
  | CompletedWithErrors (count : nat).

(** The state of the page that the file handlers read and set; a file is
    known by its name. *)
Record state := {
  selectedFiles : list string;
  newFiles : list string;
  results : list InvoiceData;
  processing : bool;
  error : option notice;
  vatRate : number;
}.

(** [uploadAndProcess], the collaborator that uploads files and returns
    what was extracted from them: [inl message] when it throws. *)
Definition processor := list string -> string + ProcessResponse.t.

(** [handleFileChange], at the files picked in the dialog:
<<
    if (e.target.files && e.target.files.length > 0) {
      const files = Array.from(e.target.files);
      if (results.length > 0) setNewFiles(files);
      else setSelectedFiles(prev => [...prev, ...files]);
      setError(null);
    }
>> *)
Definition handleFileChange (files : list string) (st : state) : state :=
  match files with
  | [] => st
  | _ :: _ =>
      match results st with
      | _ :: _ =>
          {| selectedFiles := selectedFiles st; newFiles := files;
             results := results st; processing := processing st;
             error := None; vatRate := vatRate st |}
      | [] =>
          {| selectedFiles := selectedFiles st ++ files; newFiles := newFiles st;
             results := results st; processing := processing st;
             error := None; vatRate := vatRate st |}
      end
  end.

(** [handleRemoveFile]: [setSelectedFiles(prev => prev.filter((_, i) => i !== index))] *)
Definition handleRemoveFile (index : nat) (st : state) : state :=
  {| selectedFiles :=
       filter_index (fun i => negb (i =? index)%nat) 0 (selectedFiles st);
     newFiles := newFiles st; results := results st;
     processing := processing st; error := error st; vatRate := vatRate st |}.

(** [handleClearAll] *)
Definition handleClearAll (st : state) : state :=
  {| selectedFiles := []; newFiles := []; results := results st;
     processing := processing st; error := None; vatRate := vatRate st |}.

(** The error banner after a response:
    [if (response.errors.length > 0) setError(`Processing completed with ${n} error(s)`)] *)
Definition banner (response : ProcessResponse.t) : option notice :=
  match ProcessResponse.errors response with
  | [] => None
  | _ :: _ => Some (CompletedWithErrors (length (ProcessResponse.errors response)))
  end.

(** [handleStartProcessing]:
<<
    if (selectedFiles.length === 0) return;
    setError(null); setProcessing(true); setResults([]);
    try {
      const response = await uploadAndProcess(selectedFiles);
      setResults(response.results);
      if (response.vat_rate !== undefined && response.vat_rate !== null) setVatRate(response.vat_rate);
      if (response.errors.length > 0) setError(...);
      setSelectedFiles([]);
    } catch (err) {
      setError(err instanceof Error ? err.message : 'Processing failed');
    } finally { setProcessing(false); }
>> *)
Definition handleStartProcessing (uploadAndProcess : processor) (st : state) : state :=
  match selectedFiles st with
  | [] => st
  | _ :: _ =>
      match uploadAndProcess (selectedFiles st) with
      | inr response =>
          {| selectedFiles := []; newFiles := newFiles st;
             results := ProcessResponse.results response; processing := false;
             error := banner response;
             vatRate := default (vatRate st) (ProcessResponse.vat_rate response) |}
      | inl message =>
          {| selectedFiles := selectedFiles st; newFiles := newFiles st;
             results := []; processing := false;
             error := Some (Message message); vatRate := vatRate st |}
      end
  end.

(** [handleProcessNewFiles]:
<<
    if (newFiles.length === 0) return;
    setError(null); setProcessing(true);
    try {
      const response = await uploadAndProcess(newFiles);
      setResults(prev => [...prev, ...response.results]);
      if (response.vat_rate !== undefined && response.vat_rate !== null) setVatRate(response.vat_rate);
      if (response.errors.length > 0) setError(...);
      setNewFiles([]);
    } catch (err) {
      setError(err instanceof Error ? err.message : 'Processing failed');
    } finally { setProcessing(false); }
>> *)
Definition handleProcessNewFiles (uploadAndProcess : processor) (st : state) : state :=
  match newFiles st with
  | [] => st
  | _ :: _ =>
      match uploadAndProcess (newFiles st) with
      | inr response =>
          {| selectedFiles := selectedFiles st; newFiles := [];
             results := results st ++ ProcessResponse.results response;
             processing := false; error := banner response;
             vatRate := default (vatRate st) (ProcessResponse.vat_rate response) |}
      | inl message =>
          {| selectedFiles := selectedFiles st; newFiles := newFiles st;
             results := results st; processing := false;
             error := Some (Message message); vatRate := vatRate st |}
      end
  end.

End Intake.

(** ** Numbers *)

(** [Number.isNaN] *)
Definition isNaN (x : number) : bool :=
  match Prim2SF x with
  | S754_nan => true
  | _ => false
  end.

(** An optional number that is not NaN: undefined, or a number other
    than NaN. *)
Definition not_NaN (o : option number) : bool :=
  match o with
  | Some x => negb (isNaN x)
  | None => true
  end.

(** Each amount of the record [after] is the one of [before], or is not
    NaN. *)
Definition kept_or_not_NaN (before after : InvoiceData) : Prop :=
  (subtotal after = subtotal before \/ not_NaN (subtotal after) = true) /\
  (tax_amount after = tax_amount before \/ not_NaN (tax_amount after) = true) /\
  (total after = total before \/ not_NaN (total after) = true).
(* ===================================================================== *)
(** * Facts about numbers *)
(* ===================================================================== *)

Section Numbers.

Local Open Scope float_scope.

Lemma round2_absent_when_not_finite (x : number) :
  isFinite x = false -> round2 (Some x) = None.
Proof. intros H. unfold round2. now rewrite H. Qed.

Lemma round2_present_when_finite (x : number) :
  isFinite x = true -> round2 (Some x) = Some (Math_round (x * 100) / 100).
Proof. intros H. unfold round2. now rewrite H. Qed.

(** A number that compares equal to 0 is one of the two zeros. *)
Lemma zero_when_equal_to_zero (x : number) :
  (x =? 0) = true -> exists s, Prim2SF x = S754_zero s.
Proof.
  rewrite FloatAxioms.eqb_spec.
  change (Prim2SF 0) with (S754_zero false).
  destruct (Prim2SF x) as [s | s | | s m e]; cbn;
    try discriminate; try (destruct s; discriminate).
  intros _. now exists s.
Qed.

(** Whatever is divided by a zero, the quotient is an infinity or NaN. *)
Lemma quotient_by_zero_not_finite (t rate : number) :
  (rate =? 0) = true -> isFinite (t / rate) = false.
Proof.
  intros [s Hs]%zero_when_equal_to_zero.
  unfold isFinite. rewrite FloatAxioms.div_spec, Hs.
  unfold SF64div, SFdiv.
  destruct (Prim2SF t) as [st | st | | st mt et]; reflexivity.
Qed.

End Numbers.

(* ===================================================================== *)
(** * The reconciler *)
(* ===================================================================== *)

Section Reconciler.

Local Open Scope float_scope.

#[local] Arguments round2 : simpl never.
#[local] Arguments isFinite : simpl never.
#[local] Arguments Math_round : simpl never.
#[local] Arguments truthy : simpl never.

(** The setters determine the three amounts of the record they return. *)
Lemma amounts_after_set_subtotal v inv :
  subtotal (set_subtotal v inv) = v /\
  tax_amount (set_subtotal v inv) = tax_amount inv /\
  total (set_subtotal v inv) = total inv.
Proof. now destruct inv. Qed.

Lemma amounts_after_set_tax_amount v inv :
  subtotal (set_tax_amount v inv) = subtotal inv /\
  tax_amount (set_tax_amount v inv) = v /\
  total (set_tax_amount v inv) = total inv.
Proof. now destruct inv. Qed.

Lemma amounts_after_set_total v inv :
  subtotal (set_total v inv) = subtotal inv /\
  tax_amount (set_total v inv) = tax_amount inv /\
  total (set_total v inv) = v.
Proof. now destruct inv. Qed.



(** *** What each edit leaves in the three amounts *)



Lemma Paged_edit_tax_amount vatRate t item :
  amounts (Paged.reconcile vatRate (EditNumber k_tax_amount (Some t)) item) =
  (round2 (Some (t / vatRate)), Some t,
   round2 (Some (or_zero (round2 (Some (t / vatRate))) + t))).
Proof. now destruct item. Qed.

Lemma Paged_edit_total vatRate tot item :
  amounts (Paged.reconcile vatRate (EditNumber k_total (Some tot)) item) =
  (round2 (Some (tot / (1 + vatRate))),
   round2 (Some (or_zero (round2 (Some (tot / (1 + vatRate)))) * vatRate)),
   Some tot).
Proof. now destruct item. Qed.




Lemma Gated_edit_total vatRate v item :
  amounts (Gated.reconcile vatRate (EditNumber k_total v) item) =
  if falsy (tax_amount item) then
    let s := round2 (Some (or_zero v / (1 + (if truthy vatRate then vatRate else 0)))) in
    (s, round2 (Some (or_zero v - Gated.or_else_zero s)), v)
  else (round2 (Some (or_zero v - or_zero (tax_amount item))), tax_amount item, v).
Proof.
  destruct item as [? ? ? ? ? ? ? ? ? ? ? ? ? tax ? ? ? ? ? ? ?].
  unfold amounts, Gated.reconcile. cbn. now destruct (falsy tax).
Qed.

(** Closes a goal on the amounts from the equations at hand. *)
Ltac finish :=
  unfold or_zero in *; cbn in *; repeat split; congruence.




(** C2 (as amended).  In the later revision, an edit of the total to the
    number [v] of a record whose tax is a number other than 0 and NaN
    stores [round2(v - tax)] as the subtotal and keeps the tax. *)
Theorem total_edit_recomputes_subtotal (vatRate v t : number) (item : InvoiceData) :
  tax_amount item = Some t -> truthy t = true ->
  amounts (Gated.reconcile vatRate (EditNumber k_total (Some v)) item) =
  (round2 (Some (v - t)), Some t, Some v).
Proof.
  intros Htax Ht. rewrite Gated_edit_total, Htax. cbn [falsy].
  rewrite Ht. reflexivity.
Qed.

(** The scenario of the specification: subtotal 100, tax 18 at the rate
    0.18, then the total edited to 200. *)
Lemma total_edit_recomputes_subtotal_witness :
  amounts (Gated.reconcile 0.18 (EditNumber k_total (Some 200))
             (with_amounts 100 18 118 (sample "a.pdf"))) =
  (Some 182, Some 18, Some 200).
Proof.
  rewrite (total_edit_recomputes_subtotal 0.18 200 18
             (with_amounts 100 18 118 (sample "a.pdf")) eq_refl eq_refl).
  vm_compute. reflexivity.
Defined.

(** C2 fails as stated.  In the later revision a tax of 0 counts as not
    set: a total edited to 118 over the tax 0 gives the subtotal 100 and the
    tax 18 from the rate, where [round2(118 - 0)] is 118.  In
    [UploadPage.tsx] the total edited to 200 over the tax 18 gives the
    subtotal 169.49 from the rate, where [round2(200 - 18)] is 182. *)
Lemma total_edit_reconstructs_from_rate :
  (amounts (Gated.reconcile 0.18 (EditNumber k_total (Some 118))
              (with_amounts 100 0 100 (sample "a.pdf"))) =
   (Some 100, Some 18, Some 118) /\
   round2 (Some (118 - 0)) = Some 118) /\
  (amounts (Paged.reconcile 0.18 (EditNumber k_total (Some 200))
              (with_amounts 100 18 118 (sample "a.pdf"))) =
   (Some 169.49, Some 30.51, Some 200) /\
   round2 (Some (200 - 18)) = Some 182).
Proof. vm_compute. repeat split. Qed.

(** C6 (as amended).  In [UploadPage.tsx], an edit of the tax to a number
    while the rate is 0 stores no subtotal: the quotient by the rate is not
    finite and [round2] gives undefined for it, whatever the subtotal was.
    The total is recomputed, as [round2(0 + tax)]. *)
Theorem tax_edit_at_zero_rate (vatRate t : number) (item : InvoiceData) :
  (vatRate =? 0) = true ->
  amounts (Paged.reconcile vatRate (EditNumber k_tax_amount (Some t)) item) =
  (None, Some t, round2 (Some (0 + t))).
Proof.
  intros Hrate. rewrite Paged_edit_tax_amount.
  rewrite (round2_absent_when_not_finite _ (quotient_by_zero_not_finite t vatRate Hrate)).
  reflexivity.
Qed.

Lemma tax_edit_at_zero_rate_witness :
  amounts (Paged.reconcile 0 (EditNumber k_tax_amount (Some 20))
             (with_amounts 100 18 118 (sample "a.pdf"))) =
  (None, Some 20, Some 20).
Proof.
  rewrite (tax_edit_at_zero_rate 0 20 (with_amounts 100 18 118 (sample "a.pdf")) eq_refl).
  vm_compute. reflexivity.
Defined.

(** C6 fails as stated: at the rate 0 the subtotal 100 of a record is not
    kept when its tax is edited to 20, it becomes undefined. *)
Lemma zero_rate_discards_subtotal :
  subtotal (with_amounts 100 18 118 (sample "a.pdf")) = Some 100 /\
  subtotal (Paged.reconcile 0 (EditNumber k_tax_amount (Some 20))
              (with_amounts 100 18 118 (sample "a.pdf"))) = None.
Proof. vm_compute. split; reflexivity. Qed.

(** C9, where the code departs from it.  [round2] tests its argument with
    [isFinite] and then scales it by 100: a finite argument above
    1.797e306 overflows there, and [round2] returns Infinity.  A subtotal
    of 1e307 typed at the rate 0.18 stores Infinity as the tax in
    [UploadPage.tsx], and as the total in the later revision. *)
Theorem derived_amount_stored_as_infinity :
  isFinite (1e307 * 0.18) = true /\
  round2 (Some (1e307 * 0.18)) = Some infinity /\
  tax_amount (Paged.reconcile 0.18 (EditNumber k_subtotal (Some 1e307))
                (sample "a.pdf")) = Some infinity /\
  total (Gated.reconcile 0.18 (EditNumber k_subtotal (Some 1e307))
           (with_amounts 0 0 0 (sample "a.pdf"))) = Some infinity.
Proof. vm_compute. repeat split. Qed.

End Reconciler.

(* ===================================================================== *)
(** * The extraction loop *)
(* ===================================================================== *)

Section ExtractionLoop.

Import Paged.

Lemma files_covered_cons page pages :
  files_covered (page :: pages) =
  ProcessResponse.files_handled page + files_covered pages.
Proof. reflexivity. Qed.

Lemma files_covered_positive T pages :
  Forall (advancing T) pages -> pages <> [] -> 1 <= files_covered pages.
Proof.
  induction 1 as [|page pages [Hfh _] Hall IH]; [congruence|].
  intros _. rewrite files_covered_cons.
  destruct pages as [|next pages].
  - cbn. lia.
  - specialize (IH ltac:(discriminate)). lia.
Qed.

(** A round against a scripted server that still has a page. *)
Lemma round_scripted done page rest pathToProcess c :
  length (requests c) = length done ->
  exists c',
    round (scripted (done ++ page :: rest)) pathToProcess c = inr c' /\
    allResults c' = allResults c ++ ProcessResponse.results page /\
    shown c' = allResults c' /\
    allErrors c' = allErrors c ++ ProcessResponse.errors page /\
    startingPoint c' = startingPoint c + ProcessResponse.files_handled page /\
    totalFiles c' =
      (if totalFiles c =? 0 then ProcessResponse.total_files page else totalFiles c) /\
    length (requests c') = S (length (requests c)).
Proof.
  intros Hlen. unfold round, scripted. rewrite Hlen.
  rewrite list_lookup_middle by reflexivity.
  eexists. split; [reflexivity|]. cbn.
  rewrite length_app. cbn. repeat split; lia.
Qed.

(** The loop against pages that advance and cover the [T] files between
    them, from a cursor that has consumed the pages [done]. *)
Lemma loop_consumes_pages T pathToProcess rest :
  forall done c fuel,
    rest <> [] ->
    Forall (advancing T) rest ->
    length (requests c) = length done ->
    startingPoint c + files_covered rest = T ->
    totalFiles c = 0 \/ totalFiles c = T ->
    (length rest <= fuel)%nat ->
    exists c',
      loop fuel (scripted (done ++ rest)) pathToProcess c = Completed c' /\
      allResults c' = allResults c ++ concat (ProcessResponse.results <$> rest) /\
      shown c' = allResults c' /\
      allErrors c' = allErrors c ++ concat (ProcessResponse.errors <$> rest) /\
      length (requests c') = (length (requests c) + length rest)%nat.
Proof.
  induction rest as [|page rest IH]; [congruence|].
  intros done c fuel _ Hall Hlen Hsum Htotal Hfuel.
  apply Forall_cons in Hall as [[Hfh Hpage] Hall].
  destruct fuel as [|fuel]; [cbn in Hfuel; lia|].
  destruct (round_scripted done page rest pathToProcess c Hlen)
    as (c1 & Hround & Hres & Hshown & Herr & Hsp & Htf & Hreq).
  cbn [loop]. rewrite Hround.
  assert (totalFiles c1 = T) as HT.
  { rewrite Htf. destruct Htotal as [-> | ->]; [exact Hpage|].
    destruct (T =? 0); [exact Hpage | reflexivity]. }
  rewrite files_covered_cons in Hsum.
  destruct rest as [|next rest].
  - (* the last page: the cursor reaches the total *)
    cbn in Hsum. replace (startingPoint c1 <? totalFiles c1) with false
      by (symmetry; apply Z.ltb_ge; lia).
    exists c1. cbn. rewrite !app_nil_r. repeat split; auto; lia.
  - pose proof (files_covered_positive T (next :: rest) Hall ltac:(discriminate)).
    replace (startingPoint c1 <? totalFiles c1) with true
      by (symmetry; apply Z.ltb_lt; lia).
    destruct (IH (done ++ [page]) c1 fuel) as (c' & Hloop & Hres' & Hshown' & Herr' & Hreq');
      try discriminate; auto.
    + rewrite length_app. cbn. lia.
    + lia.
    + cbn in Hfuel |- *. lia.
    + rewrite <- app_assoc in Hloop. cbn in Hloop.
      exists c'. split; [exact Hloop|].
      repeat split; auto.
      * rewrite Hres', Hres, <- app_assoc. reflexivity.
      * rewrite Herr', Herr, <- app_assoc. reflexivity.
      * rewrite Hreq', Hreq. cbn [length]. lia.
Qed.

(** C4.  Against pages that each cover at least one file and report the
    same total [T], and that cover the [T] files between them, the loop is
    left after one request per page, at most [T] requests; the accumulated
    records, which the page shows, are those of the pages in their order,
    and the errors are the error strings of the pages in their order. *)
Theorem extraction_accumulates_all_pages (pages : list ProcessResponse.t)
    (T : Z) (pathToProcess : string) (vatRate0 : number) (fuel : nat) :
  pages <> [] ->
  Forall (advancing T) pages ->
  files_covered pages = T ->
  (length pages <= fuel)%nat ->
  exists c,
    loop fuel (scripted pages) pathToProcess (start vatRate0) = Completed c /\
    allResults c = concat (ProcessResponse.results <$> pages) /\
    shown c = allResults c /\
    allErrors c = concat (ProcessResponse.errors <$> pages) /\
    length (requests c) = length pages /\
    Z.of_nat (length pages) <= T.
Proof.
  intros Hne Hall Hsum Hfuel.
  destruct (loop_consumes_pages T pathToProcess pages [] (start vatRate0) fuel)
    as (c & Hloop & Hres & Hshown & Herr & Hreq); auto.
  exists c. repeat split; auto.
  clear - Hall Hsum. revert T Hall Hsum.
  induction pages as [|page pages IH]; intros T Hall Hsum; [cbn in *; lia|].
  apply Forall_cons in Hall as [[Hfh Hpage] Hall].
  rewrite files_covered_cons in Hsum. cbn [length].
  enough (Z.of_nat (length pages) <= files_covered pages) by lia.
  clear - Hall. induction Hall as [|p ps [Hp _] _ IH']; [cbn; lia|].
  rewrite files_covered_cons. cbn [length]. lia.
Qed.

(** The scenario of the specification: two pages of five files, the
    session [A, B, C, D, E], one error, two requests. *)
Lemma extraction_accumulates_all_pages_witness :
  exists c,
    loop 5 (scripted two_pages) "uploads/batch-1" (start 0.18) = Completed c /\
    allResults c =
      [sample "A.pdf"; sample "B.pdf"; sample "C.pdf"; sample "D.pdf"; sample "E.pdf"] /\
    shown c = allResults c /\
    allErrors c = ["E failed OCR"%string] /\
    length (requests c) = 2%nat.
Proof.
  destruct (extraction_accumulates_all_pages two_pages 5 "uploads/batch-1" 0.18 5)
    as (c & Hloop & Hres & Hshown & Herr & Hreq & _).
  - discriminate.
  - repeat constructor; cbn; lia.
  - reflexivity.
  - cbn. lia.
  - exists c. repeat split; assumption.
Defined.

(** A round against a server whose pages cover no file leaves the cursor
    where it was. *)
Lemma round_stalling srv T pathToProcess c :
  (forall n request, exists page, srv n request = inr page /\ stalling T page) ->
  startingPoint c = 0 ->
  totalFiles c = 0 \/ totalFiles c = T ->
  exists c',
    round srv pathToProcess c = inr c' /\
    startingPoint c' = 0 /\ totalFiles c' = T /\
    length (requests c') = S (length (requests c)).
Proof.
  intros Hsrv Hsp Htotal.
  set (request := {| ProcessRequest.path := pathToProcess;
                     ProcessRequest.recursive := false;
                     ProcessRequest.language_detection := true;
                     ProcessRequest.starting_point := startingPoint c |}).
  destruct (Hsrv (length (requests c)) request) as (page & Hpage & Hfh & Htf).
  unfold round. fold request. rewrite Hpage.
  eexists. split; [reflexivity|]. cbn.
  rewrite length_app. cbn. repeat split; try lia.
  destruct Htotal as [-> | ->]; [exact Htf|].
  destruct (T =? 0); [exact Htf | reflexivity].
Qed.

(** Against such a server, with a total of at least one file, the loop is
    running after any number of requests. *)
Lemma loop_stalling srv T pathToProcess :
  1 <= T ->
  (forall n request, exists page, srv n request = inr page /\ stalling T page) ->
  forall fuel c,
    startingPoint c = 0 ->
    totalFiles c = 0 \/ totalFiles c = T ->
    exists c',
      loop fuel srv pathToProcess c = Running c' /\
      startingPoint c' = 0 /\
      length (requests c') = (length (requests c) + fuel)%nat.
Proof.
  intros HT Hsrv. induction fuel as [|fuel IH]; intros c Hsp Htotal.
  - exists c. cbn. repeat split; auto.
  - destruct (round_stalling srv T pathToProcess c Hsrv Hsp Htotal)
      as (c1 & Hround & Hsp1 & Htf1 & Hreq1).
    cbn [loop]. rewrite Hround.
    replace (startingPoint c1 <? totalFiles c1) with true
      by (symmetry; apply Z.ltb_lt; lia).
    destruct (IH c1 Hsp1 (or_intror Htf1)) as (c' & Hloop & Hsp' & Hreq').
    exists c'. repeat split; auto. lia.
Qed.

(** C7 (as amended).  When every page reports that it handled no file, of
    a total of at least one, the loop has no guard that ends it: however
    many requests are allowed, it has sent them all and is still running,
    with [startingPoint] at 0 and no error raised. *)
Theorem stalled_cursor_keeps_requesting (srv : server) (T : Z)
    (pathToProcess : string) (vatRate0 : number) (fuel : nat) :
  1 <= T ->
  (forall n request, exists page, srv n request = inr page /\ stalling T page) ->
  exists c,
    loop fuel srv pathToProcess (start vatRate0) = Running c /\
    startingPoint c = 0 /\
    length (requests c) = fuel.
Proof.
  intros HT Hsrv.
  destruct (loop_stalling srv T pathToProcess HT Hsrv fuel (start vatRate0))
    as (c & Hloop & Hsp & Hreq); auto.
  exists c. repeat split; auto.
Qed.

Lemma stalled_cursor_keeps_requesting_witness :
  exists c,
    loop 1000 stalled "uploads/batch-1" (start 0.18) = Running c /\
    startingPoint c = 0 /\
    length (requests c) = 1000%nat.
Proof.
  apply (stalled_cursor_keeps_requesting stalled 3 "uploads/batch-1" 0.18 1000).
  - lia.
  - intros n request. eexists. split; [reflexivity|]. split; reflexivity.
Defined.

(** C7 fails as stated: against the server that answers every request
    with no file handled of three, the loop never raises an error and is
    never left. *)
Lemma stalled_server_loops_forever :
  never_leaves_loop stalled "uploads/batch-1" 0.18.
Proof.
  intros fuel.
  destruct (loop_stalling stalled 3 "uploads/batch-1" ltac:(lia)
              ltac:(intros; eexists; split; [reflexivity | split; reflexivity])
              fuel (start 0.18)) as (c & -> & _); auto.
Qed.

End ExtractionLoop.

(* ===================================================================== *)
(** * The merge of the returned supplier ids *)
(* ===================================================================== *)

Section Merge.

Import Paged.

Lemma without_supplier_set v inv :
  without_supplier (set_supplier_id v inv) = without_supplier inv.
Proof. now destruct inv. Qed.

Lemma supplier_id_set v inv : supplier_id (set_supplier_id v inv) = v.
Proof. now destruct inv. Qed.

Lemma set_supplier_id_set v w inv :
  set_supplier_id v (set_supplier_id w inv) = set_supplier_id v inv.
Proof. now destruct inv. Qed.

Lemma set_supplier_id_same inv : set_supplier_id (supplier_id inv) inv = inv.
Proof. now destruct inv. Qed.

(** One row of the response. *)
Lemma merge_row_length updated r : length (merge_row updated r) = length updated.
Proof.
  unfold merge_row.
  destruct (SaveInvoicesBatchResult.supplier_id r); [|reflexivity].
  destruct (at_index updated _); [|reflexivity].
  apply length_insert.
Qed.

Lemma merge_row_lookup updated r (i : nat) :
  merge_row updated r !! i =
  (fun inv =>
     if bool_decide (SaveInvoicesBatchResult.index r = Z.of_nat i)
     then match SaveInvoicesBatchResult.supplier_id r with
          | Some sid => set_supplier_id (Some sid) inv
          | None => inv
          end
     else inv) <$> updated !! i.
Proof.
  unfold merge_row, at_index.
  destruct (SaveInvoicesBatchResult.supplier_id r) as [sid|].
  2:{ destruct (updated !! i); cbn; [|reflexivity]. now case_bool_decide. }
  destruct (0 <=? SaveInvoicesBatchResult.index r) eqn:Hpos.
  - apply Z.leb_le in Hpos.
    destruct (updated !! Z.to_nat (SaveInvoicesBatchResult.index r)) as [inv|] eqn:Hinv.
    + destruct (decide (Z.to_nat (SaveInvoicesBatchResult.index r) = i)) as [<-|Hne].
      * rewrite list_lookup_insert_eq by (eapply lookup_lt_Some; eassumption).
        rewrite Hinv. cbn. rewrite bool_decide_true by lia. reflexivity.
      * rewrite list_lookup_insert_ne by assumption.
        destruct (updated !! i); cbn; [|reflexivity].
        rewrite bool_decide_false by lia. reflexivity.
    + destruct (updated !! i) eqn:Hi; cbn; [|reflexivity].
      case_bool_decide as Hidx; [|reflexivity].
      replace (Z.to_nat (SaveInvoicesBatchResult.index r)) with i in Hinv by lia.
      rewrite Hi in Hinv. discriminate Hinv.
  - apply Z.leb_gt in Hpos.
    destruct (updated !! i); cbn; [|reflexivity].
    rewrite bool_decide_false by lia. reflexivity.
Qed.

Lemma mergeSupplierIds_snoc rows r prev :
  mergeSupplierIds (rows ++ [r]) prev = merge_row (mergeSupplierIds rows prev) r.
Proof. unfold mergeSupplierIds. now rewrite foldl_app. Qed.

Lemma supplier_for_snoc i rows r :
  supplier_for i (rows ++ [r]) =
  if bool_decide (SaveInvoicesBatchResult.index r = Z.of_nat i)
  then match SaveInvoicesBatchResult.supplier_id r with
       | Some sid => Some sid
       | None => supplier_for i rows
       end
  else supplier_for i rows.
Proof. unfold supplier_for. now rewrite foldl_app. Qed.

(** The record at each index after the merge: the record that was there,
    with the supplier id the rows give for it. *)
Lemma merge_at rows prev (i : nat) :
  mergeSupplierIds rows prev !! i =
  (fun inv => set_supplier_id (merged_supplier (supplier_for i rows) inv) inv)
    <$> prev !! i.
Proof.
  induction rows as [|r rows IH] using rev_ind.
  - cbn. destruct (prev !! i) as [inv|]; cbn; [|reflexivity].
    now rewrite set_supplier_id_same.
  - rewrite mergeSupplierIds_snoc, merge_row_lookup, IH, supplier_for_snoc.
    destruct (prev !! i) as [inv|]; cbn; [|reflexivity].
    case_bool_decide; [|reflexivity].
    destruct (SaveInvoicesBatchResult.supplier_id r) as [sid|]; [|reflexivity].
    cbn. now rewrite set_supplier_id_set.
Qed.

(** C10.  The merge of the supplier ids that a write response returns
    keeps the length of the session; it keeps, record by record and in
    their order, every field but the supplier id; and the supplier id of
    the record at an index becomes the one of the last row of the response
    addressed to that index that carries a supplier id, and stays what it
    was when there is no such row.  A row without supplier id, and a row
    whose index is below 0 or past the end, is addressed to no record and
    changes nothing. *)
Theorem merge_writes_supplier_ids_only
    (rows : list SaveInvoicesBatchResult.t) (prev : list InvoiceData) :
  length (mergeSupplierIds rows prev) = length prev /\
  without_supplier <$> mergeSupplierIds rows prev = without_supplier <$> prev /\
  forall i : nat,
    supplier_id <$> mergeSupplierIds rows prev !! i =
    merged_supplier (supplier_for i rows) <$> prev !! i.
Proof.
  assert (without_supplier <$> mergeSupplierIds rows prev = without_supplier <$> prev)
    as Hframe.
  { apply list_eq. intros i. rewrite !list_lookup_fmap, merge_at.
    destruct (prev !! i) as [inv|]; cbn; [|reflexivity].
    now rewrite without_supplier_set. }
  split; [|split; [exact Hframe|]].
  - apply (f_equal length) in Hframe. now rewrite !length_fmap in Hframe.
  - intros i. rewrite merge_at.
    destruct (prev !! i) as [inv|]; cbn; [|reflexivity].
    now rewrite supplier_id_set.
Qed.

End Merge.

(* ===================================================================== *)
(** * The commit handlers of the revision with the conflict gate *)
(* ===================================================================== *)

Section Commit.

Import Gated.

(** The setters and the fields of the state. *)
Lemma results_caught m f st : results (caught m f st) = results st.
Proof. now destruct st. Qed.

Lemma savedInvoiceIds_caught m f st :
  savedInvoiceIds (caught m f st) = savedInvoiceIds st.
Proof. now destruct st. Qed.

Lemma results_blocked c st :
  results (setSaving false (setShowConflictModal true (setConflicts c
             (setError None (setSaving true st))))) = results st.
Proof. now destruct st. Qed.

Lemma savedInvoiceIds_blocked c st :
  savedInvoiceIds (setSaving false (setShowConflictModal true (setConflicts c
                     (setError None (setSaving true st))))) = savedInvoiceIds st.
Proof. now destruct st. Qed.

(** The calls of the part of [handleSaveAll] from the write on. *)
Lemma write_all_calls io payload gate st :
  snd (write_all io payload gate st) =
  gate ++ [SaveInvoicesBatch payload (saveInvoicesBatch io payload)].
Proof.
  unfold write_all.
  destruct (saveInvoicesBatch io payload) as [message|resp]; [reflexivity|].
  destruct (SaveInvoicesBatchResponse.results resp); [reflexivity|].
  now destruct (errorCount _ =? 0)%nat.
Qed.

Lemma conflict_reported_app calls calls' :
  conflict_reported (calls ++ calls') =
  conflict_reported calls || conflict_reported calls'.
Proof. unfold conflict_reported. apply existsb_app. Qed.

(** C3.  In a commit attempt, [handleSaveSingle] or [handleSaveAll], in
    which the conflict check answers [has_conflicts: true],
    [saveInvoicesBatch] is not called, and the records of the session and
    the persisted identifiers are what they were. *)
Theorem conflict_blocks_write (io : collaborators) (a : attempt) (st : state) :
  conflict_reported (snd (commit io a st)) = true ->
  wrote (snd (commit io a st)) = false /\
  results (fst (commit io a st)) = results st /\
  savedInvoiceIds (fst (commit io a st)) = savedInvoiceIds st.
Proof.
  destruct a as [index|]; cbn [commit].
  - unfold handleSaveSingle.
    destruct (negb (id_truthy (customerId st))); [discriminate|].
    destruct (results st !! index) as [r|]; [|discriminate].
    set (st1 := setError None (setSaving true st)).
    set (payload := {| SaveInvoicesBatchRequest.customer_id := _ |}).
    destruct (checkInvoiceConflicts io payload) as [message|answer] eqn:Hcheck;
      [discriminate|].
    destruct (ConflictCheckResponse.has_conflicts answer) eqn:Hconflict.
    + intros _. cbn [fst snd]. split; [reflexivity|].
      subst st1. now rewrite results_blocked, savedInvoiceIds_blocked.
    + intros H. exfalso. revert H.
      destruct (saveInvoicesBatch io payload) as [message|resp].
      { cbn. rewrite Hconflict. discriminate. }
      destruct (head _) as [first|].
      2:{ cbn. rewrite Hconflict. discriminate. }
      destruct (text_truthy _).
      { cbn. rewrite Hconflict. discriminate. }
      destruct (SaveInvoicesBatchResult.inserted_id first);
        cbn; rewrite Hconflict; discriminate.
  - unfold handleSaveAll.
    destruct (negb (id_truthy (customerId st)) || bool_decide (results st = []));
      [discriminate|].
    set (st1 := setError None (setSaving true st)).
    set (payload := {| SaveInvoicesBatchRequest.customer_id := _ |}).
    destruct (filter_index _ 0 (results st1)) as [|unsavedInvoice more].
    { rewrite write_all_calls. discriminate. }
    set (conflictPayload := {| SaveInvoicesBatchRequest.customer_id := _ |}).
    destruct (checkInvoiceConflicts io conflictPayload) as [message|answer];
      [discriminate|].
    destruct (ConflictCheckResponse.has_conflicts answer) eqn:Hconflict.
    + intros _. cbn [fst snd]. split; [reflexivity|].
      subst st1. now rewrite results_blocked, savedInvoiceIds_blocked.
    + rewrite write_all_calls, conflict_reported_app. cbn.
      rewrite Hconflict. discriminate.
Qed.

Lemma conflict_blocks_write_witness :
  wrote (snd (commit (answering duplicate_invoice [row 0 (Some 11) None]) SaveAll
                (session_two ∅))) = false /\
  results (fst (commit (answering duplicate_invoice [row 0 (Some 11) None]) SaveAll
                  (session_two ∅))) = [sample "A.pdf"; sample "B.pdf"] /\
  savedInvoiceIds (fst (commit (answering duplicate_invoice [row 0 (Some 11) None])
                          SaveAll (session_two ∅))) = ∅.
Proof.
  apply (conflict_blocks_write (answering duplicate_invoice [row 0 (Some 11) None])
           SaveAll (session_two ∅)).
  reflexivity.
Defined.

(** What [handleSaveAll] leaves of the session, from the write on. *)
Lemma write_all_session io payload gate st resp :
  saveInvoicesBatch io payload = inr resp ->
  results (fst (write_all io payload gate st)) =
    (if clears_session (SaveInvoicesBatchResponse.results resp) then [] else results st) /\
  savedInvoiceIds (fst (write_all io payload gate st)) =
    (if clears_session (SaveInvoicesBatchResponse.results resp) then ∅
     else savedInvoiceIds st).
Proof.
  intros Hsave. unfold write_all, clears_session. rewrite Hsave.
  destruct (SaveInvoicesBatchResponse.results resp) as [|first rows].
  - now destruct st.
  - destruct (errorCount (first :: rows) =? 0)%nat; now destruct st.
Qed.

Lemma results_started st : results (setError None (setSaving true st)) = results st.
Proof. now destruct st. Qed.

Lemma savedInvoiceIds_started st :
  savedInvoiceIds (setError None (setSaving true st)) = savedInvoiceIds st.
Proof. now destruct st. Qed.

(** C5 (as amended).  When [handleSaveAll] has received a write response,
    the session is cleared, records and persisted identifiers, if and only
    if the response has at least one row and none of its rows carries an
    error; otherwise, and so whenever a row carries an error, the session
    is left as it was, with all its records. *)
Theorem save_all_clears_on_clean_response (io : collaborators) (st : state)
    (payload : SaveInvoicesBatchRequest.t) (resp : SaveInvoicesBatchResponse.t) :
  In (SaveInvoicesBatch payload (inr resp)) (snd (handleSaveAll io st)) ->
  results (fst (handleSaveAll io st)) =
    (if clears_session (SaveInvoicesBatchResponse.results resp) then [] else results st) /\
  savedInvoiceIds (fst (handleSaveAll io st)) =
    (if clears_session (SaveInvoicesBatchResponse.results resp) then ∅
     else savedInvoiceIds st).
Proof.
  unfold handleSaveAll.
  destruct (negb (id_truthy (customerId st)) || bool_decide (results st = []));
    [intros []|].
  set (st1 := setError None (setSaving true st)).
  set (sent := {| SaveInvoicesBatchRequest.customer_id := _ |}).
  assert (forall gate,
            (forall p a, ~ In (SaveInvoicesBatch p a) gate) ->
            In (SaveInvoicesBatch payload (inr resp)) (snd (write_all io sent gate st1)) ->
            results (fst (write_all io sent gate st1)) =
              (if clears_session (SaveInvoicesBatchResponse.results resp)
               then [] else results st) /\
            savedInvoiceIds (fst (write_all io sent gate st1)) =
              (if clears_session (SaveInvoicesBatchResponse.results resp)
               then ∅ else savedInvoiceIds st)) as Hwrite.
  { intros gate Hgate. rewrite write_all_calls, in_app_iff.
    intros [Hin | [[= _ Hanswer] | []]]; [now apply Hgate in Hin|].
    destruct (write_all_session io sent gate st1 resp Hanswer) as [Hres Hids].
    subst st1. rewrite results_started in Hres.
    rewrite savedInvoiceIds_started in Hids. now split. }
  destruct (filter_index _ 0 (results st1)) as [|unsavedInvoice more].
  { apply Hwrite. intros p a []. }
  set (conflictPayload := {| SaveInvoicesBatchRequest.customer_id := _ |}).
  destruct (checkInvoiceConflicts io conflictPayload) as [message|answer].
  { intros [[=] | []]. }
  destruct (ConflictCheckResponse.has_conflicts answer).
  { intros [[=] | []]. }
  apply Hwrite. intros p a [[=] | []].
Qed.

Lemma save_all_clears_on_clean_response_witness :
  results (fst (handleSaveAll
                  (answering no_conflicts [row 0 (Some 11) None; row 1 (Some 12) None])
                  (session_two ∅))) = [] /\
  savedInvoiceIds (fst (handleSaveAll
                          (answering no_conflicts
                             [row 0 (Some 11) None; row 1 (Some 12) None])
                          (session_two ∅))) = ∅.
Proof.
  apply (save_all_clears_on_clean_response
           (answering no_conflicts [row 0 (Some 11) None; row 1 (Some 12) None])
           (session_two ∅)
           {| SaveInvoicesBatchRequest.customer_id := 7;
              SaveInvoicesBatchRequest.invoices :=
                toPayload averageConfidence <$> [sample "A.pdf"; sample "B.pdf"] |}
           {| SaveInvoicesBatchResponse.results :=
                [row 0 (Some 11) None; row 1 (Some 12) None] |}).
  vm_compute. right. left. reflexivity.
Defined.

(** C5 fails as stated.  The first record of a session of two is
    inserted and the second is refused: the session keeps both records,
    the inserted one with the refused one. *)
Lemma partial_failure_keeps_all_records :
  let io := answering no_conflicts
              [row 0 (Some 11) None; row 1 None (Some "duplicate key"%string)] in
  results (fst (handleSaveAll io (session_two ∅))) =
    [sample "A.pdf"; sample "B.pdf"] /\
  error (fst (handleSaveAll io (session_two ∅))) = Some (CompletedWithErrors 1 1 0) /\
  wrote (snd (handleSaveAll io (session_two ∅))) = true.
Proof. vm_compute. repeat split. Qed.

(** C8, where the code departs from it.  The record at index 0 is in the
    persisted identifiers, the record at index 1 is not.  [handleSaveAll]
    sends the conflict check the second record alone; [handleSaveSingle]
    at index 0 sends it the persisted record. *)
Theorem save_single_checks_persisted_record :
  let io := answering no_conflicts [row 0 (Some 41) None] in
  let st := session_two {[ 0%nat := 41 ]} in
  unsaved (savedInvoiceIds st) 0 = false /\
  checked_invoices (snd (handleSaveAll io st)) =
    [[toPayload averageConfidence (sample "B.pdf")]] /\
  checked_invoices (snd (handleSaveSingle io 0 st)) =
    [[toPayload averageConfidence (sample "A.pdf")]].
Proof. vm_compute. repeat split. Qed.

End Commit.

(* ===================================================================== *)
(** * More on the reconciler *)
(* ===================================================================== *)

Section ReconcilerFrame.

Local Open Scope float_scope.

#[local] Arguments round2 : simpl never.
#[local] Arguments truthy : simpl never.

(** [update_at], on which both revisions of [handleUpdateResult] rest. *)
Lemma update_at_frame (index : nat) (f : InvoiceData -> InvoiceData)
    (prev updated : list InvoiceData) :
  update_at index f prev = Some updated ->
  length updated = length prev /\
  updated !! index = f <$> prev !! index /\
  forall other : nat, other <> index -> updated !! other = prev !! other.
Proof.
  unfold update_at. destruct (prev !! index) as [inv|] eqn:Hinv; [|discriminate].
  cbn. intros [= <-]. split; [apply length_insert|]. split.
  - rewrite list_lookup_insert_eq by (eapply lookup_lt_Some; eassumption).
    reflexivity.
  - intros other Hother. now apply list_lookup_insert_ne.
Qed.

Lemma update_at_out_of_range (index : nat) (f : InvoiceData -> InvoiceData)
    (prev : list InvoiceData) :
  update_at index f prev = None <-> (length prev <= index)%nat.
Proof.
  unfold update_at. rewrite <- lookup_ge_None.
  destruct (prev !! index); cbn; split; congruence.
Qed.

(** X1.  With [index] inside the session, [handleUpdateResult] returns,
    in both revisions, a list of the same length in which the record at
    [index] is the reconciled copy and every other record is the one that
    was there. *)
Theorem handleUpdateResult_touches_one_record (vatRate : number)
    (index : nat) (e : edit) (prev : list InvoiceData) :
  (index < length prev)%nat ->
  exists paged gated,
    Paged.handleUpdateResult vatRate index e prev = Some paged /\
    Gated.handleUpdateResult vatRate index e prev = Some gated /\
    length paged = length prev /\ length gated = length prev /\
    paged !! index = Paged.reconcile vatRate e <$> prev !! index /\
    gated !! index = Gated.reconcile vatRate e <$> prev !! index /\
    forall other : nat, other <> index ->
      paged !! other = prev !! other /\ gated !! other = prev !! other.
Proof.
  intros Hin.
  destruct (Paged.handleUpdateResult vatRate index e prev) as [paged|] eqn:Hp.
  2:{ apply update_at_out_of_range in Hp. lia. }
  destruct (Gated.handleUpdateResult vatRate index e prev) as [gated|] eqn:Hg.
  2:{ apply update_at_out_of_range in Hg. lia. }
  apply update_at_frame in Hp as (Hlp & Hip & Hop).
  apply update_at_frame in Hg as (Hlg & Hig & Hog).
  exists paged, gated. repeat split; auto.
Qed.

Lemma handleUpdateResult_touches_one_record_witness :
  exists paged gated,
    Paged.handleUpdateResult 0.18 1 (EditNumber k_subtotal (Some 50))
      [sample "A.pdf"; sample "B.pdf"] = Some paged /\
    Gated.handleUpdateResult 0.18 1 (EditNumber k_subtotal (Some 50))
      [sample "A.pdf"; sample "B.pdf"] = Some gated /\
    paged !! 0%nat = Some (sample "A.pdf") /\
    gated !! 0%nat = Some (sample "A.pdf").
Proof.
  destruct (handleUpdateResult_touches_one_record 0.18 1
              (EditNumber k_subtotal (Some 50)) [sample "A.pdf"; sample "B.pdf"])
    as (paged & gated & Hp & Hg & _ & _ & _ & _ & Hother).
  - cbn. lia.
  - exists paged, gated. destruct (Hother 0%nat) as [H0p H0g]; [lia|].
    repeat split; assumption.
Defined.

(** X2.  An index past the end makes [handleUpdateResult] throw (the
    record to edit is undefined), in both revisions, and only then. *)
Theorem handleUpdateResult_throws_out_of_range (vatRate : number)
    (index : nat) (e : edit) (prev : list InvoiceData) :
  (Paged.handleUpdateResult vatRate index e prev = None <->
   (length prev <= index)%nat) /\
  (Gated.handleUpdateResult vatRate index e prev = None <->
   (length prev <= index)%nat).
Proof. split; apply update_at_out_of_range. Qed.

(** The three amounts of the record an assignment returns. *)
Lemma amounts_assign_other (e : edit) (inv : InvoiceData) :
  money_edit e = false -> amounts (assign e inv) = amounts inv.
Proof. destruct e as [[] v | [] v], inv; (discriminate || reflexivity). Qed.

(** X3.  An edit of a field other than subtotal, tax and total is an
    assignment and nothing else, in both revisions: the three amounts are
    what they were. *)
Theorem other_edit_recomputes_nothing (vatRate : number) (e : edit)
    (item : InvoiceData) :
  money_edit e = false ->
  Paged.reconcile vatRate e item = assign e item /\
  Gated.reconcile vatRate e item = assign e item /\
  amounts (assign e item) = amounts item.
Proof.
  intros He. split; [|split; [|now apply amounts_assign_other]].
  - destruct e as [[] v | k v]; (discriminate || reflexivity).
  - destruct e as [[] v | k v]; (discriminate || reflexivity).
Qed.

Lemma other_edit_recomputes_nothing_witness :
  let e := EditString k_supplier_name "Globex" in
  let item := with_amounts 100 18 118 (sample "A.pdf") in
  Paged.reconcile 0.18 e item = assign e item /\
  Gated.reconcile 0.18 e item = assign e item /\
  amounts (assign e item) = amounts item.
Proof.
  intros e item. apply (other_edit_recomputes_nothing 0.18 e item). reflexivity.
Defined.

Lemma without_amounts_set_subtotal v inv :
  without_amounts (set_subtotal v inv) = without_amounts inv.
Proof. now destruct inv. Qed.

Lemma without_amounts_set_tax_amount v inv :
  without_amounts (set_tax_amount v inv) = without_amounts inv.
Proof. now destruct inv. Qed.

Lemma without_amounts_set_total v inv :
  without_amounts (set_total v inv) = without_amounts inv.
Proof. now destruct inv. Qed.

(** X4.  An edit of subtotal, tax or total changes amounts only, in both
    revisions: every other field of the record is what it was. *)
Theorem money_edit_keeps_other_fields (vatRate : number) (e : edit)
    (item : InvoiceData) :
  money_edit e = true ->
  without_amounts (Paged.reconcile vatRate e item) = without_amounts item /\
  without_amounts (Gated.reconcile vatRate e item) = without_amounts item.
Proof.
  intros He. split.
  - unfold Paged.reconcile.
    destruct e as [[] [x|] | k v]; try discriminate He; cbn [field_is assign];
      cbn match; cbn [subtotal tax_amount total];
      repeat (rewrite without_amounts_set_total || rewrite without_amounts_set_tax_amount
              || rewrite without_amounts_set_subtotal); try reflexivity;
      destruct item; reflexivity.
  - unfold Gated.reconcile.
    destruct e as [[] v | k v]; try discriminate He;
      cbn [field_is assign orb andb]; cbv zeta;
      try destruct (falsy _);
      repeat (rewrite without_amounts_set_total || rewrite without_amounts_set_tax_amount
              || rewrite without_amounts_set_subtotal); reflexivity.
Qed.

Lemma money_edit_keeps_other_fields_witness :
  let e := EditNumber k_total (Some 200) in
  let item := with_amounts 100 18 118 (sample "A.pdf") in
  without_amounts (Paged.reconcile 0.18 e item) = without_amounts item /\
  without_amounts (Gated.reconcile 0.18 e item) = without_amounts item.
Proof.
  intros e item. apply (money_edit_keeps_other_fields 0.18 e item). reflexivity.
Defined.

(** X5.  Applying an edit a second time changes nothing more: in
    [UploadPage.tsx] for every edit, in the later revision for every edit
    of the subtotal (there the result of an edit of tax or total depends
    on amounts that the first application has replaced). *)
Theorem same_edit_twice (vatRate : number) (e : edit) (v : option number)
    (item : InvoiceData) :
  Paged.reconcile vatRate e (Paged.reconcile vatRate e item) =
    Paged.reconcile vatRate e item /\
  Gated.reconcile vatRate (EditNumber k_subtotal v)
    (Gated.reconcile vatRate (EditNumber k_subtotal v) item) =
    Gated.reconcile vatRate (EditNumber k_subtotal v) item.
Proof.
  split.
  - destruct e as [[] [x|] | [] w], item; reflexivity.
  - destruct item; reflexivity.
Qed.

End ReconcilerFrame.

(* ===================================================================== *)
(** * More on the extraction loop *)
(* ===================================================================== *)

Section ExtractionRuns.

Import Paged.

(** A round that is answered. *)
Lemma round_received srv pathToProcess c page :
  srv (length (requests c)) (request_from pathToProcess (startingPoint c)) = inr page ->
  round srv pathToProcess c = inr (received pathToProcess c page).
Proof. intros H. unfold round. fold (request_from pathToProcess (startingPoint c)). now rewrite H. Qed.

(** A round whose request throws. *)
Lemma round_thrown srv pathToProcess c message :
  srv (length (requests c)) (request_from pathToProcess (startingPoint c)) = inl message ->
  exists c',
    round srv pathToProcess c = inl (message, c') /\
    allResults c' = allResults c /\ shown c' = shown c /\
    allErrors c' = allErrors c /\ rate c' = rate c /\
    requests c' = requests c ++ [request_from pathToProcess (startingPoint c)].
Proof.
  intros H. unfold round. fold (request_from pathToProcess (startingPoint c)).
  rewrite H. eexists. split; [reflexivity|]. cbn. repeat split.
Qed.

(** The cursor after the pages of a list. *)
Lemma received_pages pathToProcess pages : forall c,
  let c' := foldl (received pathToProcess) c pages in
  allResults c' = allResults c ++ concat (ProcessResponse.results <$> pages) /\
  allErrors c' = allErrors c ++ concat (ProcessResponse.errors <$> pages) /\
  startingPoint c' = startingPoint c + files_covered pages /\
  rate c' = reported_rate (rate c) pages /\
  requests c' =
    requests c ++ (request_from pathToProcess <$> starting_points (startingPoint c) pages) /\
  (pages <> [] -> shown c' = allResults c').
Proof.
  induction pages as [|page pages IH]; intros c; cbn zeta.
  - cbn. rewrite !app_nil_r, Z.add_0_r. repeat split; auto. congruence.
  - cbn [foldl]. specialize (IH (received pathToProcess c page)). cbn zeta in IH.
    destruct IH as (Hres & Herr & Hsp & Hrate & Hreq & Hshown).
    repeat split.
    + rewrite Hres. cbn. now rewrite <- app_assoc.
    + rewrite Herr. cbn. now rewrite <- app_assoc.
    + rewrite Hsp, files_covered_cons. cbn. lia.
    + rewrite Hrate. reflexivity.
    + rewrite Hreq. cbn. now rewrite <- app_assoc.
    + intros _. destruct pages as [|next pages]; [reflexivity|].
      now apply Hshown.
Qed.

Lemma files_covered_nonnegative T pages :
  Forall (advancing T) pages -> 0 <= files_covered pages.
Proof.
  induction 1 as [|page pages [Hfh _] _ IH]; [cbn; lia|].
  rewrite files_covered_cons. lia.
Qed.

Lemma failing_after_answers done page rest message request :
  failing_after (done ++ page :: rest) message (length done) request = inr page.
Proof. unfold failing_after. now rewrite list_lookup_middle. Qed.

Lemma failing_after_throws pages message request :
  failing_after pages message (length pages) request = inl message.
Proof.
  unfold failing_after. now rewrite (proj2 (lookup_ge_None pages (length pages))).
Qed.

Lemma latched_total T c page pathToProcess :
  totalFiles c = 0 \/ totalFiles c = T ->
  ProcessResponse.total_files page = T ->
  totalFiles (received pathToProcess c page) = T.
Proof.
  intros [H | H] Hpage; cbn; rewrite H; [exact Hpage|].
  destruct (T =? 0); [exact Hpage | reflexivity].
Qed.

(** The loop against pages that advance and cover the [T] files: it is
    left with the cursor that the pages give, one after the other. *)
Lemma loop_completes_with T pathToProcess message rest :
  forall done c fuel,
    rest <> [] ->
    Forall (advancing T) rest ->
    length (requests c) = length done ->
    startingPoint c + files_covered rest = T ->
    totalFiles c = 0 \/ totalFiles c = T ->
    (length rest <= fuel)%nat ->
    loop fuel (failing_after (done ++ rest) message) pathToProcess c =
    Completed (foldl (received pathToProcess) c rest).
Proof.
  induction rest as [|page rest IH]; [congruence|].
  intros done c fuel _ Hall Hlen Hsum Htotal Hfuel.
  apply Forall_cons in Hall as [[Hfh Hpage] Hall].
  destruct fuel as [|fuel]; [cbn in Hfuel; lia|].
  cbn [loop foldl].
  rewrite (round_received _ _ _ page)
    by (rewrite Hlen; apply failing_after_answers).
  pose proof (latched_total T c page pathToProcess Htotal Hpage) as HT.
  rewrite files_covered_cons in Hsum.
  destruct rest as [|next rest].
  - cbn in Hsum. rewrite HT.
    replace (startingPoint (received pathToProcess c page) <? T) with false
      by (symmetry; apply Z.ltb_ge; cbn; lia).
    reflexivity.
  - pose proof (files_covered_positive T (next :: rest) Hall ltac:(discriminate)).
    rewrite HT.
    replace (startingPoint (received pathToProcess c page) <? T) with true
      by (symmetry; apply Z.ltb_lt; cbn; lia).
    replace (done ++ page :: next :: rest) with ((done ++ [page]) ++ next :: rest)
      by (now rewrite <- app_assoc).
    apply IH; auto; try discriminate; try (right; exact HT).
    + cbn. rewrite !length_app. cbn. lia.
    + cbn [startingPoint received]. lia.
    + cbn [length] in Hfuel |- *. lia.
Qed.

(** The loop against pages that advance and stop short of the [T] files,
    after which the requests throw: the request after the last page
    throws, with the cursor that the pages have given. *)
Lemma loop_fails_with T pathToProcess message rest :
  forall done c fuel,
    Forall (advancing T) rest ->
    length (requests c) = length done ->
    startingPoint c + files_covered rest < T ->
    totalFiles c = 0 \/ totalFiles c = T ->
    (length rest < fuel)%nat ->
    exists c',
      loop fuel (failing_after (done ++ rest) message) pathToProcess c =
        Failed message c' /\
      allResults c' = allResults (foldl (received pathToProcess) c rest) /\
      shown c' = shown (foldl (received pathToProcess) c rest) /\
      allErrors c' = allErrors (foldl (received pathToProcess) c rest) /\
      rate c' = rate (foldl (received pathToProcess) c rest) /\
      length (requests c') = S (length (requests c) + length rest).
Proof.
  induction rest as [|page rest IH];
    intros done c fuel Hall Hlen Hsum Htotal Hfuel;
    (destruct fuel as [|fuel]; [cbn in Hfuel; lia|]).
  - rewrite app_nil_r. cbn [loop foldl].
    destruct (round_thrown (failing_after done message) pathToProcess c message)
      as (c' & Hround & Hres & Hshown & Herr & Hrate & Hreq).
    { rewrite Hlen. apply failing_after_throws. }
    rewrite Hround. exists c'. repeat split; auto.
    rewrite Hreq, length_app. cbn. lia.
  - apply Forall_cons in Hall as [[Hfh Hpage] Hall].
    cbn [loop foldl].
    rewrite (round_received _ _ _ page)
      by (rewrite Hlen; apply failing_after_answers).
    pose proof (latched_total T c page pathToProcess Htotal Hpage) as HT.
    pose proof (files_covered_nonnegative T rest Hall).
    rewrite files_covered_cons in Hsum.
    rewrite HT.
    replace (startingPoint (received pathToProcess c page) <? T) with true
      by (symmetry; apply Z.ltb_lt; cbn; lia).
    replace (done ++ page :: rest) with ((done ++ [page]) ++ rest)
      by (now rewrite <- app_assoc).
    destruct (IH (done ++ [page]) (received pathToProcess c page) fuel)
      as (c' & Hloop & Hres & Hshown & Herr & Hrate & Hreq); auto;
      try (right; exact HT).
    + cbn. rewrite !length_app. cbn. lia.
    + cbn [startingPoint received]. lia.
    + cbn [length] in Hfuel |- *. lia.
    + exists c'. repeat split; auto.
      rewrite Hreq. cbn. rewrite length_app. cbn. lia.
Qed.

Lemma received_pages_total T pathToProcess pages : forall c,
  pages <> [] ->
  Forall (advancing T) pages ->
  totalFiles c = 0 \/ totalFiles c = T ->
  totalFiles (foldl (received pathToProcess) c pages) = T.
Proof.
  induction pages as [|page pages IH]; [congruence|].
  intros c _ Hall Htotal. apply Forall_cons in Hall as [[_ Hpage] Hall].
  pose proof (latched_total T c page pathToProcess Htotal Hpage) as HT.
  cbn [foldl]. destruct pages as [|next pages]; [exact HT|].
  apply IH; auto; discriminate.
Qed.

(** X6.  Against pages that advance and cover the [T] files, the requests
    of the loop are all for the same path, not recursive, with language
    detection, and each starts where the pages before it have brought the
    cursor: at 0, then at the files handled so far.  The loop is left
    with the cursor at [T], the total of the first page, and with the rate
    that the last page to report one has given. *)
Theorem requests_follow_the_cursor (pages : list ProcessResponse.t) (T : Z)
    (pathToProcess : string) (vatRate0 : number) (fuel : nat) :
  pages <> [] ->
  Forall (advancing T) pages ->
  files_covered pages = T ->
  (length pages <= fuel)%nat ->
  exists c,
    loop fuel (scripted pages) pathToProcess (start vatRate0) = Completed c /\
    requests c = request_from pathToProcess <$> starting_points 0 pages /\
    startingPoint c = T /\ totalFiles c = T /\
    rate c = reported_rate vatRate0 pages.
Proof.
  intros Hne Hall Hsum Hfuel.
  exists (foldl (received pathToProcess) (start vatRate0) pages).
  destruct (received_pages pathToProcess pages (start vatRate0))
    as (_ & _ & Hsp & Hrate & Hreq & _).
  split; [|repeat split].
  - change (scripted pages) with (failing_after ([] ++ pages) "Network Error").
    apply (loop_completes_with T); auto.
  - exact Hreq.
  - rewrite Hsp. cbn. lia.
  - apply (received_pages_total T); auto.
  - exact Hrate.
Qed.

Lemma requests_follow_the_cursor_witness :
  exists c,
    loop 2 (scripted two_pages) "uploads/batch-1" (start 0.18) = Completed c /\
    requests c =
      [request_from "uploads/batch-1" 0; request_from "uploads/batch-1" 2] /\
    startingPoint c = 5 /\ totalFiles c = 5 /\ rate c = 0.18%float.
Proof.
  apply (requests_follow_the_cursor two_pages 5 "uploads/batch-1" 0.18 2).
  - discriminate.
  - repeat constructor; cbn; lia.
  - reflexivity.
  - cbn. lia.
Defined.

(** X7.  When a request throws after pages that advance and stop short of
    the total, [handleFilesSelected] ends there: the page shows the
    message of the error, it is no longer loading, and the records and
    the rate of the pages received so far stay. *)
Theorem failure_keeps_partial_results (pages : list ProcessResponse.t)
    (T : Z) (pathToProcess message : string) (fuel : nat)
    (uploadFilesToS3 : list string -> string + string) (st : state) :
  nonempty pathToProcess = true ->
  Forall (advancing T) pages ->
  files_covered pages < T ->
  (length pages < fuel)%nat ->
  exists st',
    handleFilesSelected fuel (failing_after pages message) uploadFilesToS3 []
      (Some pathToProcess) st = Some st' /\
    results st' = concat (ProcessResponse.results <$> pages) /\
    error st' = Some (Message message) /\
    loading st' = false /\
    vatRate st' = reported_rate (vatRate st) pages.
Proof.
  intros Hpath Hall Hshort Hfuel.
  unfold handleFilesSelected, resolve. rewrite Hpath.
  destruct (loop_fails_with T pathToProcess message pages [] (start (vatRate st)) fuel)
    as (c & Hloop & Hres & Hshown & _ & Hrate & _); auto.
  cbn [app] in Hloop. rewrite Hloop.
  destruct (received_pages pathToProcess pages (start (vatRate st)))
    as (Hres' & _ & _ & Hrate' & _ & Hshown').
  eexists. split; [reflexivity|]. cbn. repeat split.
  - rewrite Hshown. destruct pages as [|page pages]; [reflexivity|].
    rewrite Hshown' by discriminate. exact Hres'.
  - rewrite Hrate. exact Hrate'.
Qed.

Lemma failure_keeps_partial_results_witness :
  exists st',
    handleFilesSelected 5 (failing_after (take 1 two_pages) "timeout of 30000ms exceeded")
      (fun _ => inl "unused"%string) [] (Some "uploads/batch-1"%string)
      {| results := []; loading := false; error := None; processingProgress := None;
         vatRate := 0.18; customerId := None; saving := false; saveResult := None |}
      = Some st' /\
    results st' = [sample "A.pdf"; sample "B.pdf"] /\
    error st' = Some (Message "timeout of 30000ms exceeded") /\
    loading st' = false /\
    vatRate st' = 0.18%float.
Proof.
  apply (failure_keeps_partial_results (take 1 two_pages) 5).
  - reflexivity.
  - repeat constructor; cbn; lia.
  - cbn. lia.
  - cbn. lia.
Defined.

(** X8.  When the first page reports a total of 0 files (and handled no
    negative number of them), the loop is left after that one request. *)
Theorem no_files_ends_after_one_request (srv : server) (pathToProcess : string)
    (vatRate0 : number) (page : ProcessResponse.t) (fuel : nat) :
  srv 0%nat (request_from pathToProcess 0) = inr page ->
  ProcessResponse.total_files page = 0 ->
  0 <= ProcessResponse.files_handled page ->
  loop (S fuel) srv pathToProcess (start vatRate0) =
    Completed (received pathToProcess (start vatRate0) page) /\
  requests (received pathToProcess (start vatRate0) page) =
    [request_from pathToProcess 0].
Proof.
  intros Hsrv Htotal Hfh. split; [|reflexivity].
  cbn [loop]. rewrite (round_received _ _ _ page) by exact Hsrv.
  cbn. rewrite Htotal.
  replace (0 + ProcessResponse.files_handled page <? 0) with false
    by (symmetry; apply Z.ltb_ge; lia).
  reflexivity.
Qed.

Lemma no_files_ends_after_one_request_witness :
  let page := {| ProcessResponse.results := []; ProcessResponse.errors := [];
                 ProcessResponse.total_files := 0; ProcessResponse.files_handled := 0;
                 ProcessResponse.vat_rate := None |} in
  loop 3 (scripted [page]) "uploads/empty" (start 0.18) =
    Completed (received "uploads/empty" (start 0.18) page) /\
  requests (received "uploads/empty" (start 0.18) page) =
    [request_from "uploads/empty" 0].
Proof.
  intros page.
  apply (no_files_ends_after_one_request (scripted [page]) "uploads/empty" 0.18 page 2).
  - reflexivity.
  - reflexivity.
  - cbn. lia.
Defined.

(** X9.  [handleFilesSelected] on a path, against pages that advance and
    cover the [T] files: the page shows the records of the pages in their
    order, the progress line says that [T] files are completed, the error
    banner counts the error strings of the pages (and is empty without
    any), the rate is the last one reported, and the page is no longer
    loading; the customer and the save state are untouched. *)
Theorem handleFilesSelected_completes (pages : list ProcessResponse.t) (T : Z)
    (pathToProcess : string) (fuel : nat)
    (uploadFilesToS3 : list string -> string + string) (st : state) :
  nonempty pathToProcess = true ->
  pages <> [] ->
  Forall (advancing T) pages ->
  files_covered pages = T ->
  (length pages <= fuel)%nat ->
  handleFilesSelected fuel (scripted pages) uploadFilesToS3 []
    (Some pathToProcess) st =
  Some {| results := concat (ProcessResponse.results <$> pages);
          loading := false;
          error :=
            match concat (ProcessResponse.errors <$> pages) with
            | [] => None
            | _ :: _ =>
                Some (CompletedWithErrors
                        (length (concat (ProcessResponse.errors <$> pages))))
            end;
          processingProgress := Some (CompletedProcessing T);
          vatRate := reported_rate (vatRate st) pages;
          customerId := customerId st;
          saving := saving st;
          saveResult := saveResult st |}.
Proof.
  intros Hpath Hne Hall Hsum Hfuel.
  unfold handleFilesSelected, resolve. rewrite Hpath.
  change (scripted pages) with (failing_after ([] ++ pages) "Network Error").
  rewrite (loop_completes_with T) by auto.
  destruct (received_pages pathToProcess pages (start (vatRate st)))
    as (Hres & Herr & _ & Hrate & _ & Hshown).
  rewrite (received_pages_total T) by auto.
  rewrite Hshown, Hres, Herr, Hrate by assumption. reflexivity.
Qed.

Lemma handleFilesSelected_completes_witness :
  handleFilesSelected 2 (scripted two_pages) (fun _ => inl "unused"%string) []
    (Some "uploads/batch-1"%string)
    {| results := [sample "old.pdf"]; loading := false; error := None;
       processingProgress := None; vatRate := 0.17; customerId := Some 7;
       saving := false; saveResult := None |} =
  Some {| results := [sample "A.pdf"; sample "B.pdf"; sample "C.pdf";
                      sample "D.pdf"; sample "E.pdf"];
          loading := false;
          error := Some (CompletedWithErrors 1);
          processingProgress := Some (CompletedProcessing 5);
          vatRate := 0.17;
          customerId := Some 7; saving := false; saveResult := None |}.
Proof.
  apply (handleFilesSelected_completes two_pages 5 "uploads/batch-1" 2).
  - reflexivity.
  - discriminate.
  - repeat constructor; cbn; lia.
  - reflexivity.
  - cbn. lia.
Defined.

End ExtractionRuns.

(* ===================================================================== *)
(** * The upload service *)
(* ===================================================================== *)

Section UploadService.

Import Uploads.

Lemma alter_at_end {A} (f : A -> A) (before : list A) (x : A) (after : list A) :
  alter f (length before) (before ++ x :: after) = before ++ f x :: after.
Proof.
  replace (length before) with (length before + 0)%nat by lia.
  now rewrite alter_app_r.
Qed.

(** The loop over files that are all accepted. *)
Lemma upload_from_accepted uploadFile rest :
  forall before uploadDir calls,
    Forall (accepted uploadFile) rest ->
    upload_from uploadFile (length before) rest uploadDir
      (before ++ (waiting <$> rest)) calls =
    (inr (if bool_decide (length before = 0%nat)
          then match rest with
               | [] => uploadDir
               | _ :: _ => directory_of uploadFile rest
               end
          else uploadDir),
     before ++ (done <$> rest), calls ++ rest).
Proof.
  induction rest as [|file rest IH]; intros before uploadDir calls Hall.
  - cbn. rewrite !app_nil_r. now case_bool_decide.
  - apply Forall_cons in Hall as [(response & Hfile & Hok) Hall].
    cbn [upload_from fmap list_fmap]. rewrite Hfile, Hok.
    rewrite !alter_at_end. cbn [set_status waiting filename error].
    specialize (IH (before ++ [done file])
                  (if bool_decide (length before = 0%nat)
                   then upload_dir response else uploadDir)
                  (calls ++ [file]) Hall).
    rewrite length_app in IH. cbn [length] in IH.
    replace (length before + 1)%nat with (S (length before)) in IH by lia.
    rewrite <- !app_assoc in IH. cbn [app] in IH.
    change (set_status completed (set_status uploading (waiting file))) with (done file).
    rewrite IH. rewrite (bool_decide_false (S _ = 0%nat)) by lia.
    cbn [directory_of]. rewrite Hfile. now case_bool_decide.
Qed.

(** X10.  When [uploadFile] accepts every file, [uploadFilesToS3] returns
    the upload directory of the first file (the empty string without
    files), it has called [uploadFile] once for each file, in order, and
    the progress list has every file completed, in order. *)
Theorem upload_of_accepted_files (uploadFile : uploader) (files : list string) :
  Forall (accepted uploadFile) files ->
  uploadFilesToS3 uploadFile files =
  (inr (directory_of uploadFile files), done <$> files, files).
Proof.
  intros Hall. unfold uploadFilesToS3.
  pose proof (upload_from_accepted uploadFile files [] EmptyString [] Hall) as H.
  cbn [length app] in H. rewrite H. cbn. now destruct files.
Qed.

Lemma upload_of_accepted_files_witness :
  uploadFilesToS3 (storing "uploads/batch-1") ["A.pdf"; "B.pdf"]%string =
  (inr "uploads/batch-1"%string, [done "A.pdf"; done "B.pdf"],
   ["A.pdf"; "B.pdf"]%string).
Proof.
  apply (upload_of_accepted_files (storing "uploads/batch-1") ["A.pdf"; "B.pdf"]%string).
  repeat constructor; eexists; split; reflexivity.
Defined.

(** The loop over files of which one is refused, after files that are
    accepted. *)
Lemma upload_from_refused uploadFile message accepted_files :
  forall file later before uploadDir calls,
    Forall (accepted uploadFile) accepted_files ->
    refused uploadFile file message ->
    upload_from uploadFile (length before) (accepted_files ++ file :: later) uploadDir
      (before ++ (waiting <$> accepted_files ++ file :: later)) calls =
    (inl message,
     before ++ (done <$> accepted_files) ++ broken message file :: (waiting <$> later),
     calls ++ accepted_files ++ [file]).
Proof.
  induction accepted_files as [|ok oks IH];
    intros file later before uploadDir calls Hall Hfile.
  - cbn [app upload_from fmap list_fmap].
    rewrite !alter_at_end.
    destruct Hfile as [Hthrown | [(response & Hanswer & Hno) ->]].
    + rewrite Hthrown, alter_at_end. reflexivity.
    + rewrite Hanswer, Hno. reflexivity.
  - apply Forall_cons in Hall as [(response & Hok & Hyes) Hall].
    cbn [app upload_from fmap list_fmap]. rewrite Hok, Hyes.
    rewrite !alter_at_end. cbn [set_status waiting filename error].
    specialize (IH file later (before ++ [done ok])
                  (if bool_decide (length before = 0%nat)
                   then upload_dir response else uploadDir)
                  (calls ++ [ok]) Hall Hfile).
    rewrite length_app in IH. cbn [length] in IH.
    replace (length before + 1)%nat with (S (length before)) in IH by lia.
    rewrite <- !app_assoc in IH. cbn [app] in IH.
    change (set_status completed (set_status uploading (waiting ok))) with (done ok).
    exact IH.
Qed.

(** X11.  When [uploadFile] refuses a file after files that it accepted,
    [uploadFilesToS3] throws the error of that file and stops there: it
    has called [uploadFile] for the accepted files and the refused one,
    and for none of the later ones.  In the progress list the accepted
    files are completed, the refused one carries the message, and the
    later ones are still pending. *)
Theorem upload_stops_at_refused_file (uploadFile : uploader)
    (accepted_files later : list string) (file message : string) :
  Forall (accepted uploadFile) accepted_files ->
  refused uploadFile file message ->
  uploadFilesToS3 uploadFile (accepted_files ++ file :: later) =
  (inl message,
   (done <$> accepted_files) ++ broken message file :: (waiting <$> later),
   accepted_files ++ [file]).
Proof.
  intros Hall Hfile. unfold uploadFilesToS3.
  exact (upload_from_refused uploadFile message accepted_files file later []
           EmptyString [] Hall Hfile).
Qed.

Lemma upload_stops_at_refused_file_witness :
  uploadFilesToS3 (storing_but "uploads/batch-1" "B.pdf" "Request failed with status code 413")
    ["A.pdf"; "B.pdf"; "C.pdf"]%string =
  (inl "Request failed with status code 413"%string,
   [done "A.pdf"; broken "Request failed with status code 413" "B.pdf"; waiting "C.pdf"],
   ["A.pdf"; "B.pdf"]%string).
Proof.
  apply (upload_stops_at_refused_file
           (storing_but "uploads/batch-1" "B.pdf" "Request failed with status code 413")
           ["A.pdf"%string] ["C.pdf"%string] "B.pdf"
           "Request failed with status code 413").
  - repeat constructor. eexists. split; reflexivity.
  - left. reflexivity.
Defined.

(** X12.  When the upload of the selected files fails, at a file that
    [uploadFile] refuses after files that it accepted,
    [handleFilesSelected] ends before any extraction: whatever the server
    and however many requests are allowed, the page shows the message of
    the upload error and no records, and it is no longer loading. *)
Theorem failed_upload_skips_extraction (uploadFile : uploader)
    (accepted_files later : list string) (file message : string)
    (fuel : nat) (srv : Paged.server) (localPath : option string)
    (st : Paged.state) :
  Forall (accepted uploadFile) accepted_files ->
  refused uploadFile file message ->
  Paged.handleFilesSelected fuel srv (outcome uploadFile)
    (accepted_files ++ file :: later) localPath st =
  Some {| Paged.results := []; Paged.loading := false;
          Paged.error := Some (Paged.Message message);
          Paged.processingProgress := None;
          Paged.vatRate := Paged.vatRate st;
          Paged.customerId := Paged.customerId st;
          Paged.saving := Paged.saving st;
          Paged.saveResult := Paged.saveResult st |}.
Proof.
  intros Hall Hfile. unfold Paged.handleFilesSelected, Paged.resolve, outcome.
  rewrite (upload_stops_at_refused_file uploadFile accepted_files later file message)
    by assumption.
  now destruct accepted_files.
Qed.

Lemma failed_upload_skips_extraction_witness :
  Paged.handleFilesSelected 10 stalled
    (outcome (storing_but "uploads/batch-1" "B.pdf" "Network Error"))
    ["A.pdf"; "B.pdf"; "C.pdf"]%string None
    {| Paged.results := [sample "old.pdf"]; Paged.loading := false;
       Paged.error := None; Paged.processingProgress := None;
       Paged.vatRate := 0.18; Paged.customerId := Some 7;
       Paged.saving := false; Paged.saveResult := None |} =
  Some {| Paged.results := []; Paged.loading := false;
          Paged.error := Some (Paged.Message "Network Error");
          Paged.processingProgress := None;
          Paged.vatRate := 0.18; Paged.customerId := Some 7;
          Paged.saving := false; Paged.saveResult := None |}.
Proof.
  apply (failed_upload_skips_extraction
           (storing_but "uploads/batch-1" "B.pdf" "Network Error")
           ["A.pdf"%string] ["C.pdf"%string] "B.pdf" "Network Error").
  - repeat constructor. eexists. split; reflexivity.
  - left. reflexivity.
Defined.

End UploadService.

(* ===================================================================== *)
(** * More on the commit handlers *)
(* ===================================================================== *)

Section CommitPayloads.

Import Gated.

Lemma filter_index_fmap {A B} (f : A -> B) (keep : nat -> bool) (items : list A) :
  forall idx, filter_index keep idx (f <$> items) = f <$> filter_index keep idx items.
Proof.
  induction items as [|x items IH]; intros idx; [reflexivity|].
  cbn. rewrite IH. now destruct (keep idx).
Qed.

(** What [filter((_, idx) => keep(idx))] keeps: the items at the indices
    that [keep] accepts. *)
Lemma filter_index_elem {A} (keep : nat -> bool) (items : list A) (x : A) :
  forall idx,
    In x (filter_index keep idx items) <->
    exists i : nat, items !! i = Some x /\ keep (idx + i)%nat = true.
Proof.
  induction items as [|y items IH]; intros idx; cbn.
  - split; [intros [] | intros (i & Hi & _); discriminate].
  - destruct (keep idx) eqn:Hkeep; cbn; rewrite IH; split.
    + intros [-> | (i & Hi & Hk)].
      * exists 0%nat. rewrite Nat.add_0_r. auto.
      * exists (S i). rewrite Nat.add_succ_r. auto.
    + intros ([|i] & Hi & Hk); cbn in Hi.
      * left. congruence.
      * right. exists i. now rewrite Nat.add_succ_r in Hk.
    + intros (i & Hi & Hk). exists (S i). rewrite Nat.add_succ_r. auto.
    + intros ([|i] & Hi & Hk); cbn in Hi.
      * rewrite Nat.add_0_r in Hk. congruence.
      * exists i. now rewrite Nat.add_succ_r in Hk.
Qed.

(** The calls of [handleSaveAll], whatever the collaborators answer. *)
Lemma handleSaveAll_calls io st :
  let payload :=
    {| SaveInvoicesBatchRequest.customer_id := default 0 (customerId st);
       SaveInvoicesBatchRequest.invoices := toPayload averageConfidence <$> results st |} in
  let conflictPayload :=
    {| SaveInvoicesBatchRequest.customer_id := default 0 (customerId st);
       SaveInvoicesBatchRequest.invoices :=
         toPayload averageConfidence <$>
           filter_index (unsaved (savedInvoiceIds st)) 0 (results st) |} in
  let check := CheckInvoiceConflicts conflictPayload (checkInvoiceConflicts io conflictPayload) in
  let write := SaveInvoicesBatch payload (saveInvoicesBatch io payload) in
  snd (handleSaveAll io st) = [] \/
  snd (handleSaveAll io st) = [write] /\
    filter_index (unsaved (savedInvoiceIds st)) 0 (results st) = [] \/
  filter_index (unsaved (savedInvoiceIds st)) 0 (results st) <> [] /\
    (snd (handleSaveAll io st) = [check] \/ snd (handleSaveAll io st) = [check; write]).
Proof.
  cbn zeta. unfold handleSaveAll.
  destruct (negb (id_truthy (customerId st)) || bool_decide (results st = []));
    [now left|].
  right.
  replace (customerId (setError None (setSaving true st))) with (customerId st)
    by now destruct st.
  replace (results (setError None (setSaving true st))) with (results st)
    by now destruct st.
  replace (savedInvoiceIds (setError None (setSaving true st))) with (savedInvoiceIds st)
    by now destruct st.
  cbn [SaveInvoicesBatchRequest.invoices]. rewrite filter_index_fmap.
  destruct (filter_index (unsaved (savedInvoiceIds st)) 0 (results st))
    as [|unsavedInvoice more] eqn:Hunsaved.
  - left. rewrite write_all_calls. split; reflexivity.
  - right. split; [discriminate|].
    destruct (checkInvoiceConflicts io _) as [message|answer]; [now left|].
    destruct (ConflictCheckResponse.has_conflicts answer); [now left|].
    right. now rewrite write_all_calls.
Qed.

(** X13.  The conflict check of [handleSaveAll] is sent the payloads of
    the records that are not persisted, in their order, and only those: a
    payload is in the check exactly when it is that of a record at an
    index without (non-zero) persisted identifier.  The check is never
    sent an empty list. *)
Theorem save_all_checks_unsaved_records (io : collaborators) (st : state)
    (payload : SaveInvoicesBatchRequest.t) (answer : string + ConflictCheckResponse.t) :
  In (CheckInvoiceConflicts payload answer) (snd (handleSaveAll io st)) ->
  SaveInvoicesBatchRequest.invoices payload =
    toPayload averageConfidence <$>
      filter_index (unsaved (savedInvoiceIds st)) 0 (results st) /\
  SaveInvoicesBatchRequest.invoices payload <> [] /\
  forall r,
    In r (filter_index (unsaved (savedInvoiceIds st)) 0 (results st)) <->
    exists i : nat, results st !! i = Some r /\ id_truthy (savedInvoiceIds st !! i) = false.
Proof.
  intros Hin.
  assert (forall r,
            In r (filter_index (unsaved (savedInvoiceIds st)) 0 (results st)) <->
            exists i : nat, results st !! i = Some r /\
                            id_truthy (savedInvoiceIds st !! i) = false) as Hmember.
  { intros r. rewrite filter_index_elem. unfold unsaved. cbn.
    split; intros (i & Hi & Hk); exists i; split; auto.
    - now apply negb_true_iff in Hk.
    - now apply negb_true_iff. }
  destruct (handleSaveAll_calls io st) as [H | [[H _] | [Hne [H | H]]]];
    rewrite H in Hin; cbn in Hin.
  - destruct Hin.
  - destruct Hin as [[=] | []].
  - destruct Hin as [[= <- _] | []]. cbn. split; [reflexivity|]. split; [|exact Hmember].
    destruct (filter_index _ 0 (results st)); [congruence | discriminate].
  - destruct Hin as [[= <- _] | [[=] | []]]. cbn. split; [reflexivity|].
    split; [|exact Hmember].
    destruct (filter_index _ 0 (results st)); [congruence | discriminate].
Qed.

Lemma save_all_checks_unsaved_records_witness :
  let io := answering no_conflicts [row 0 (Some 41) None] in
  let st := session_two {[ 0%nat := 41 ]} in
  let payload :=
    {| SaveInvoicesBatchRequest.customer_id := 7;
       SaveInvoicesBatchRequest.invoices := [toPayload averageConfidence (sample "B.pdf")] |} in
  SaveInvoicesBatchRequest.invoices payload =
    toPayload averageConfidence <$>
      filter_index (unsaved (savedInvoiceIds st)) 0 (results st) /\
  SaveInvoicesBatchRequest.invoices payload <> [].
Proof.
  intros io st payload.
  destruct (save_all_checks_unsaved_records io st payload (inr no_conflicts))
    as (H1 & H2 & _).
  - vm_compute. left. reflexivity.
  - split; assumption.
Defined.

(** X14.  The write of [handleSaveAll] is sent one payload for every
    record of the session, in their order, persisted or not, for the
    selected customer; and [handleSaveAll] writes at most once. *)
Theorem save_all_writes_every_record (io : collaborators) (st : state)
    (payload : SaveInvoicesBatchRequest.t)
    (answer : string + SaveInvoicesBatchResponse.t) :
  In (SaveInvoicesBatch payload answer) (snd (handleSaveAll io st)) ->
  SaveInvoicesBatchRequest.invoices payload =
    toPayload averageConfidence <$> results st /\
  Some (SaveInvoicesBatchRequest.customer_id payload) = customerId st /\
  answer = saveInvoicesBatch io payload /\
  length (List.filter is_write (snd (handleSaveAll io st))) = 1%nat.
Proof.
  intros Hin.
  assert (id_truthy (customerId st) = true) as Hcustomer.
  { revert Hin. unfold handleSaveAll.
    destruct (id_truthy (customerId st)); [reflexivity | intros []]. }
  assert (Some (default 0 (customerId st)) = customerId st) as Hid.
  { destruct (customerId st); [reflexivity | discriminate]. }
  destruct (handleSaveAll_calls io st) as [H | [[H _] | [Hne [H | H]]]];
    rewrite H in Hin |- *; cbn in Hin.
  - destruct Hin.
  - destruct Hin as [[= <- <-] | []]. cbn. repeat split; auto.
  - destruct Hin as [[=] | []].
  - destruct Hin as [[=] | [[= <- <-] | []]]. cbn. repeat split; auto.
Qed.

Lemma save_all_writes_every_record_witness :
  let io := answering no_conflicts [row 0 (Some 41) None] in
  let st := session_two {[ 0%nat := 41 ]} in
  let payload :=
    {| SaveInvoicesBatchRequest.customer_id := 7;
       SaveInvoicesBatchRequest.invoices :=
         [toPayload averageConfidence (sample "A.pdf");
          toPayload averageConfidence (sample "B.pdf")] |} in
  SaveInvoicesBatchRequest.invoices payload =
    toPayload averageConfidence <$> results st /\
  length (List.filter is_write (snd (handleSaveAll io st))) = 1%nat.
Proof.
  intros io st payload.
  destruct (save_all_writes_every_record io st payload
              (inr {| SaveInvoicesBatchResponse.results := [row 0 (Some 41) None] |}))
    as (H1 & _ & _ & H2).
  - vm_compute. right. left. reflexivity.
  - split; assumption.
Defined.

End CommitPayloads.

Section CommitState.

Import Gated.

(** The fields of the state that the setters leave alone. *)
Ltac fields st := destruct st; reflexivity.

(** X15.  A commit attempt in which no write is answered leaves the
    session as it was: the records, the persisted identifiers and the
    selected files.  So it is after a guard, a conflict, and an error
    thrown by the conflict check or by the write. *)
Theorem session_changes_only_after_write (io : collaborators) (a : attempt)
    (st : state) :
  write_answered (snd (commit io a st)) = false ->
  results (fst (commit io a st)) = results st /\
  savedInvoiceIds (fst (commit io a st)) = savedInvoiceIds st /\
  selectedFiles (fst (commit io a st)) = selectedFiles st.
Proof.
  destruct a as [index|]; cbn [commit].
  - unfold handleSaveSingle.
    destruct (negb (id_truthy (customerId st))); [intros _; repeat split; fields st|].
    destruct (results st !! index) as [r|]; [|intros _; repeat split; reflexivity].
    destruct (checkInvoiceConflicts io _) as [message|answer];
      [intros _; repeat split; fields st|].
    destruct (ConflictCheckResponse.has_conflicts answer);
      [intros _; repeat split; fields st|].
    destruct (saveInvoicesBatch io _) as [message|resp];
      [intros _; repeat split; fields st|].
    destruct (head _) as [first|]; [|discriminate].
    destruct (text_truthy _); [discriminate|].
    destruct (SaveInvoicesBatchResult.inserted_id first); discriminate.
  - unfold handleSaveAll.
    destruct (negb (id_truthy (customerId st)) || bool_decide (results st = []));
      [intros _; repeat split; reflexivity|].
    assert (forall payload gate st1,
              results st1 = results st -> savedInvoiceIds st1 = savedInvoiceIds st ->
              selectedFiles st1 = selectedFiles st ->
              write_answered (snd (write_all io payload gate st1)) = false ->
              results (fst (write_all io payload gate st1)) = results st /\
              savedInvoiceIds (fst (write_all io payload gate st1)) = savedInvoiceIds st /\
              selectedFiles (fst (write_all io payload gate st1)) = selectedFiles st)
      as Hwrite.
    { intros payload gate st1 <- <- <-. rewrite write_all_calls. unfold write_all.
      destruct (saveInvoicesBatch io payload) as [message|resp].
      - intros _. repeat split; fields st1.
      - unfold write_answered. rewrite existsb_app. cbn.
        rewrite orb_true_r. discriminate. }
    destruct (filter_index _ 0 _) as [|unsavedInvoice more].
    { apply Hwrite; fields st. }
    destruct (checkInvoiceConflicts io _) as [message|answer];
      [intros _; repeat split; fields st|].
    destruct (ConflictCheckResponse.has_conflicts answer);
      [intros _; repeat split; fields st|].
    apply Hwrite; fields st.
Qed.

Lemma session_changes_only_after_write_witness :
  let io := {| checkInvoiceConflicts := fun _ => inr no_conflicts;
               saveInvoicesBatch := fun _ => inl "Network Error"%string |} in
  results (fst (commit io SaveAll (session_two ∅))) = [sample "A.pdf"; sample "B.pdf"] /\
  savedInvoiceIds (fst (commit io SaveAll (session_two ∅))) = ∅ /\
  selectedFiles (fst (commit io SaveAll (session_two ∅))) = ["A.pdf"; "B.pdf"]%string.
Proof.
  intros io. apply (session_changes_only_after_write io SaveAll (session_two ∅)).
  reflexivity.
Defined.

(** X16.  [handleSaveSingle] never removes a persisted identifier and
    touches no identifier but that of its index.  Of the records it
    leaves every one at another index exactly as it was, supplier id
    included, and of the one at its index it may change the supplier id
    and nothing else; the session keeps its length and its order. *)
Theorem save_single_keeps_the_session (io : collaborators) (index : nat)
    (st : state) :
  delete index (savedInvoiceIds (fst (handleSaveSingle io index st))) =
    delete index (savedInvoiceIds st) /\
  dom (savedInvoiceIds st) ⊆ dom (savedInvoiceIds (fst (handleSaveSingle io index st))) /\
  length (results (fst (handleSaveSingle io index st))) = length (results st) /\
  (forall other : nat, other <> index ->
     results (fst (handleSaveSingle io index st)) !! other = results st !! other) /\
  without_supplier <$> results (fst (handleSaveSingle io index st)) !! index =
    without_supplier <$> results st !! index /\
  selectedFiles (fst (handleSaveSingle io index st)) = selectedFiles st.
Proof.
  assert (forall st1 : state,
            savedInvoiceIds st1 = savedInvoiceIds st -> results st1 = results st ->
            selectedFiles st1 = selectedFiles st ->
            delete index (savedInvoiceIds st1) = delete index (savedInvoiceIds st) /\
            dom (savedInvoiceIds st) ⊆ dom (savedInvoiceIds st1) /\
            length (results st1) = length (results st) /\
            (forall other : nat, other <> index ->
               results st1 !! other = results st !! other) /\
            without_supplier <$> results st1 !! index =
              without_supplier <$> results st !! index /\
            selectedFiles st1 = selectedFiles st) as Hsame.
  { intros st1 -> -> ->. repeat split; reflexivity. }
  unfold handleSaveSingle.
  destruct (negb (id_truthy (customerId st))); [apply Hsame; fields st|].
  destruct (results st !! index) as [r|] eqn:Hr; [|apply Hsame; reflexivity].
  destruct (checkInvoiceConflicts io _) as [message|answer]; [apply Hsame; fields st|].
  destruct (ConflictCheckResponse.has_conflicts answer); [apply Hsame; fields st|].
  destruct (saveInvoicesBatch io _) as [message|resp]; [apply Hsame; fields st|].
  destruct (head _) as [first|]; [|apply Hsame; fields st].
  destruct (text_truthy _); [apply Hsame; fields st|].
  destruct (SaveInvoicesBatchResult.inserted_id first) as [id|];
    [|apply Hsame; fields st].
  cbn [fst].
  replace (savedInvoiceIds (setSaving false (setResults _ (setSavedInvoiceIds _ _))))
    with (<[index := id]> (savedInvoiceIds st)) by fields st.
  replace (selectedFiles (setSaving false (setResults _ (setSavedInvoiceIds _ _))))
    with (selectedFiles st) by fields st.
  split; [apply delete_insert_eq|]. split; [rewrite dom_insert_L; apply union_subseteq_r|].
  destruct (SaveInvoicesBatchResult.supplier_id first) as [sid|].
  - replace (results (setSaving false (setResults _ (setSavedInvoiceIds _ _))))
      with (alter (set_supplier_id (Some sid)) index (results st)) by fields st.
    split; [apply length_alter|].
    split; [intros other Hne; now apply list_lookup_alter_ne|].
    split; [|reflexivity].
    rewrite list_lookup_alter_eq, Hr. cbn. now rewrite without_supplier_set.
  - replace (results (setSaving false (setResults _ (setSavedInvoiceIds _ _))))
      with (results st) by fields st.
    rewrite Hr. repeat split; reflexivity.
Qed.

(** X17.  Once a commit attempt has called a collaborator it ends with
    [saving] off, whatever was answered or thrown; an attempt that a guard
    stops before any call leaves [saving] as it was.  The conflict dialog
    is opened by the attempts in which a conflict was reported, and by no
    other. *)
Theorem commit_ends_saving (io : collaborators) (a : attempt) (st : state) :
  saving (fst (commit io a st)) =
    (match snd (commit io a st) with
     | [] => saving st
     | _ :: _ => false
     end) /\
  showConflictModal (fst (commit io a st)) =
    (showConflictModal st || conflict_reported (snd (commit io a st))).
Proof.
  destruct a as [index|]; cbn [commit].
  - unfold handleSaveSingle.
    destruct (negb (id_truthy (customerId st)));
      [split; cbn; [|rewrite orb_false_r]; fields st|].
    destruct (results st !! index) as [r|];
      [|split; cbn; [|rewrite orb_false_r]; reflexivity].
    destruct (checkInvoiceConflicts io _) as [message|answer];
      [split; cbn; [|rewrite orb_false_r]; fields st|].
    destruct (ConflictCheckResponse.has_conflicts answer) eqn:Hconflict.
    { split; cbn; [|rewrite Hconflict, orb_true_r]; fields st. }
    destruct (saveInvoicesBatch io _) as [message|resp];
      [split; cbn; [|rewrite Hconflict, orb_false_r]; fields st|].
    destruct (head _) as [first|];
      [|split; cbn; [|rewrite Hconflict, orb_false_r]; fields st].
    destruct (text_truthy _);
      [split; cbn; [|rewrite Hconflict, orb_false_r]; fields st|].
    destruct (SaveInvoicesBatchResult.inserted_id first);
      split; cbn; [|rewrite Hconflict, orb_false_r| |rewrite Hconflict, orb_false_r];
      fields st.
  - unfold handleSaveAll.
    destruct (negb (id_truthy (customerId st)) || bool_decide (results st = []));
      [split; cbn; [|rewrite orb_false_r]; reflexivity|].
    assert (forall payload gate st1,
              showConflictModal st1 = showConflictModal st ->
              conflict_reported gate = false ->
              saving (fst (write_all io payload gate st1)) =
                (match snd (write_all io payload gate st1) with
                 | [] => saving st
                 | _ :: _ => false
                 end) /\
              showConflictModal (fst (write_all io payload gate st1)) =
                (showConflictModal st ||
                 conflict_reported (snd (write_all io payload gate st1)))) as Hwrite.
    { intros payload gate st1 <- Hgate. rewrite write_all_calls.
      rewrite conflict_reported_app, Hgate. cbn. rewrite orb_false_r.
      replace (match gate ++ [SaveInvoicesBatch payload (saveInvoicesBatch io payload)] with
               | [] => saving st
               | _ :: _ => false
               end) with false by now destruct gate.
      unfold write_all.
      destruct (saveInvoicesBatch io payload) as [message|resp]; [split; fields st1|].
      destruct (SaveInvoicesBatchResponse.results resp); [split; fields st1|].
      destruct (errorCount _ =? 0)%nat; split; fields st1. }
    destruct (filter_index _ 0 _) as [|unsavedInvoice more].
    { apply Hwrite; [fields st | reflexivity]. }
    destruct (checkInvoiceConflicts io _) as [message|answer];
      [split; cbn; [|rewrite orb_false_r]; fields st|].
    destruct (ConflictCheckResponse.has_conflicts answer) eqn:Hconflict.
    { split; cbn; [|rewrite Hconflict, orb_true_r]; fields st. }
    apply Hwrite; [fields st|]. cbn. now rewrite Hconflict.
Qed.

End CommitState.

Section PagedCommit.

(** X18.  In [UploadPage.tsx] the commit handlers change nothing of the
    session but supplier ids, whatever [saveInvoicesBatch] answers or
    throws: the records keep their number, their order and every other
    field.  They never consult a conflict check, and they write at most
    once. *)
Theorem paged_commit_keeps_the_records (saveInvoicesBatch : Paged.writer)
    (index : nat) (st : Paged.state) :
  let single := Paged.handleSaveSingle saveInvoicesBatch index st in
  let all := Paged.handleSaveAll saveInvoicesBatch st in
  without_supplier <$> Paged.results single.1.2 = without_supplier <$> Paged.results st /\
  without_supplier <$> Paged.results all.1 = without_supplier <$> Paged.results st /\
  checked single.2 = false /\ checked all.2 = false /\
  (length single.2 <= 1)%nat /\ (length all.2 <= 1)%nat.
Proof.
  cbn zeta. unfold Paged.handleSaveSingle, Paged.handleSaveAll.
  assert (forall rows prev,
            without_supplier <$> Paged.mergeSupplierIds rows prev = without_supplier <$> prev)
    as Hmerge.
  { intros rows prev. apply list_eq. intros i. rewrite !list_lookup_fmap, merge_at.
    destruct (prev !! i); cbn; [|reflexivity]. now rewrite without_supplier_set. }
  repeat split.
  - destruct (negb (id_truthy (Paged.customerId st))); [reflexivity|].
    destruct (Paged.results st !! index) as [r|] eqn:Hr; [|reflexivity].
    destruct (saveInvoicesBatch _) as [message|resp]; [reflexivity|].
    destruct (head _) as [first|]; [|reflexivity].
    destruct (text_truthy _); [reflexivity|].
    destruct (SaveInvoicesBatchResult.supplier_id first) as [sid|]; [|reflexivity].
    cbn. apply list_eq. intros i. rewrite !list_lookup_fmap.
    destruct (decide (i = index)) as [->|Hne].
    + rewrite list_lookup_alter_eq, Hr. cbn. now rewrite without_supplier_set.
    + now rewrite list_lookup_alter_ne.
  - destruct (negb (id_truthy (Paged.customerId st)) || bool_decide (Paged.results st = []));
      [reflexivity|].
    destruct (saveInvoicesBatch _) as [message|resp]; [reflexivity|].
    cbn. apply Hmerge.
  - destruct (negb (id_truthy (Paged.customerId st))); [reflexivity|].
    destruct (Paged.results st !! index) as [r|]; [|reflexivity].
    destruct (saveInvoicesBatch _) as [message|resp]; [reflexivity|].
    destruct (head _) as [first|]; [|reflexivity].
    destruct (text_truthy _); [reflexivity|].
    now destruct (SaveInvoicesBatchResult.supplier_id first).
  - destruct (negb (id_truthy (Paged.customerId st)) || bool_decide (Paged.results st = []));
      [reflexivity|].
    now destruct (saveInvoicesBatch _).
  - destruct (negb (id_truthy (Paged.customerId st))); [cbn; lia|].
    destruct (Paged.results st !! index) as [r|]; [|cbn; lia].
    destruct (saveInvoicesBatch _) as [message|resp]; [cbn; lia|].
    destruct (head _) as [first|]; [|cbn; lia].
    destruct (text_truthy _); [cbn; lia|].
    destruct (SaveInvoicesBatchResult.supplier_id first); cbn; lia.
  - destruct (negb (id_truthy (Paged.customerId st)) || bool_decide (Paged.results st = []));
      [cbn; lia|].
    destruct (saveInvoicesBatch _); cbn; lia.
Qed.

(** X19.  Without a customer (none selected, or the id 0) no commit
    handler of either revision calls a collaborator.  [handleSaveAll]
    returns with the state untouched; [handleSaveSingle] throws
    ['Customer ID is required'] in [UploadPage.tsx] and shows
    ['Please enter a customer ID'] in the later revision. *)
Theorem no_customer_no_call (saveInvoicesBatch : Paged.writer)
    (io : Gated.collaborators) (index : nat) (paged : Paged.state)
    (gated : Gated.state) :
  id_truthy (Paged.customerId paged) = false ->
  id_truthy (Gated.customerId gated) = false ->
  Paged.handleSaveAll saveInvoicesBatch paged = (paged, []) /\
  Paged.handleSaveSingle saveInvoicesBatch index paged =
    (Some "Customer ID is required"%string, paged, []) /\
  Gated.handleSaveAll io gated = (gated, []) /\
  Gated.handleSaveSingle io index gated =
    (Gated.setError (Some (Gated.Message "Please enter a customer ID")) gated, []).
Proof.
  intros Hp Hg.
  unfold Paged.handleSaveAll, Paged.handleSaveSingle, Gated.handleSaveAll,
    Gated.handleSaveSingle.
  rewrite Hp, Hg. repeat split.
Qed.

Lemma no_customer_no_call_witness :
  let gated :=
    {| Gated.selectedFiles := []; Gated.results := [sample "A.pdf"];
       Gated.error := None; Gated.savedInvoiceIds := ∅; Gated.vatRate := 0.18%float;
       Gated.customerId := Some 0; Gated.saving := false;
       Gated.showConflictModal := false; Gated.conflicts := None;
       Gated.storedSelection := false; Gated.alerts := [] |} in
  Gated.handleSaveAll (answering no_conflicts [row 0 (Some 11) None]) gated = (gated, []).
Proof.
  intros gated.
  exact (proj1 (proj2 (proj2
    (no_customer_no_call (fun _ => inl "unused"%string)
       (answering no_conflicts [row 0 (Some 11) None]) 0
       {| Paged.results := []; Paged.loading := false; Paged.error := None;
          Paged.processingProgress := None; Paged.vatRate := 0.18%float;
          Paged.customerId := None; Paged.saving := false; Paged.saveResult := None |}
       gated eq_refl eq_refl)))).
Defined.

(** *** Slices *)

Lemma continuation_byte (n : N) :
  is_continuation (ascii_of_N (128 + n mod 64)) = true.
Proof.
  unfold is_continuation.
  assert (n mod 64 < 64)%N as Hlow by (apply N.mod_lt; discriminate).
  generalize dependent (n mod 64)%N. intros k Hk.
  rewrite N_ascii_embedding by lia.
  apply andb_true_iff. split; [apply N.leb_le | apply N.ltb_lt]; lia.
Qed.

Lemma code_units_high_surrogate (b : ascii) (rest : string) :
  (code_units (high_surrogate b rest) <= 1)%nat.
Proof.
  unfold high_surrogate. destruct rest as [|b1 [|b2 rest]]; cbn [code_units]; try lia.
  rewrite !continuation_byte.
  change (is_continuation (ascii_of_N 237)) with false.
  change (is_astral_lead (ascii_of_N 237)) with false. cbn. lia.
Qed.

(** A slice has no more code units than were asked for. *)
Lemma code_units_slice_to : forall (s : string) (n : nat),
  (code_units (slice_to n s) <= n)%nat.
Proof.
  induction s as [|b rest IH]; intros n; cbn [slice_to code_units]; [lia|].
  destruct (is_continuation b) eqn:Hc.
  { cbn [code_units]. rewrite Hc. apply IH. }
  destruct n as [|n]; [cbn; lia|].
  destruct (is_astral_lead b) eqn:Ha.
  - destruct n as [|n]; [apply code_units_high_surrogate|].
    cbn [code_units]. rewrite Hc, Ha. specialize (IH n). lia.
  - cbn [code_units]. rewrite Hc, Ha. specialize (IH n). lia.
Qed.

(** A string of no more code units than were asked for is its own slice. *)
Lemma slice_to_all : forall (s : string) (n : nat),
  (code_units s <= n)%nat -> slice_to n s = s.
Proof.
  induction s as [|b rest IH]; intros n; cbn [slice_to code_units]; [reflexivity|].
  destruct (is_continuation b); [intros H; now rewrite IH|].
  destruct (is_astral_lead b).
  - destruct n as [|[|n]]; try lia. intros H. rewrite IH by lia. reflexivity.
  - destruct n as [|n]; try lia. intros H. rewrite IH by lia. reflexivity.
Qed.

Lemma slice_to_nonempty (n : nat) (s : string) :
  nonempty s = true -> nonempty (slice_to (S (S n)) s) = true.
Proof.
  destruct s as [|b rest]; [discriminate|]. intros _. cbn [slice_to].
  destruct (is_continuation b), (is_astral_lead b); reflexivity.
Qed.

(** [o || d] is [o] where that is a string and not empty, else [d]. *)
Lemma string_or_truthy (o : option string) (d : string) :
  (text_truthy o = true -> Some (string_or o d) = o) /\
  (text_truthy o = false -> string_or o d = d).
Proof.
  unfold string_or, text_truthy. destruct o as [s|]; [|split; [discriminate|reflexivity]].
  destruct (nonempty s); split; (discriminate || reflexivity).
Qed.

(** X20.  The payload built from a record, whatever the record holds and
    in every revision.  Its currency, document type and status are those
    of the record where the record has one that is not empty, and
    ['ILS'], ['invoice'] and ['pending'] where it has not.  Its invoice
    date is the date of the record cut to ten code units: never longer,
    the date itself when that is no longer, and the empty string without
    a date.  Its due date is null exactly when the record has none or an
    empty one; otherwise it is a non-empty string of at most ten code
    units, the due date itself when that is no longer.  It is not marked
    for review. *)
Theorem payload_is_well_formed
    (averageConfidence : option (list (string * number)) -> option number)
    (r : InvoiceData) :
  let p := toPayload averageConfidence r in
  ((text_truthy (currency r) = true -> Some (SaveInvoicePayload.currency p) = currency r) /\
   (text_truthy (currency r) = false -> SaveInvoicePayload.currency p = "ILS"%string)) /\
  ((nonempty (document_type r) = true ->
    SaveInvoicePayload.document_type p = document_type r) /\
   (nonempty (document_type r) = false ->
    SaveInvoicePayload.document_type p = "invoice"%string)) /\
  ((text_truthy (status r) = true -> Some (SaveInvoicePayload.status p) = status r) /\
   (text_truthy (status r) = false -> SaveInvoicePayload.status p = "pending"%string)) /\
  (short_date (SaveInvoicePayload.invoice_date p) = true /\
   (forall d, invoice_date r = Some d -> short_date d = true ->
      SaveInvoicePayload.invoice_date p = d) /\
   (text_truthy (invoice_date r) = false ->
      SaveInvoicePayload.invoice_date p = EmptyString)) /\
  ((SaveInvoicePayload.due_date p = None <-> text_truthy (due_date r) = false) /\
   (forall d, SaveInvoicePayload.due_date p = Some d ->
      nonempty d = true /\ short_date d = true) /\
   (forall d, due_date r = Some d -> nonempty d = true -> short_date d = true ->
      SaveInvoicePayload.due_date p = Some d)) /\
  SaveInvoicePayload.needs_review p = false.
Proof.
  unfold toPayload, short_date.
  cbn [SaveInvoicePayload.currency SaveInvoicePayload.document_type
       SaveInvoicePayload.status SaveInvoicePayload.invoice_date
       SaveInvoicePayload.due_date SaveInvoicePayload.needs_review].
  split; [apply string_or_truthy|].
  split.
  { unfold string_or. destruct (nonempty (document_type r));
      split; (discriminate || reflexivity). }
  split; [apply string_or_truthy|].
  split; [|split; [|reflexivity]].
  - split; [apply Nat.leb_le, code_units_slice_to|]. split.
    + intros d Hd Hshort%Nat.leb_le. rewrite Hd. unfold string_or.
      destruct (nonempty d) eqn:Hne; [now apply slice_to_all|].
      unfold nonempty in Hne. apply negb_false_iff, bool_decide_eq_true in Hne.
      now subst d.
    + intros Hnone. now rewrite (proj2 (string_or_truthy (invoice_date r) EmptyString) Hnone).
  - destruct (due_date r) as [d|]; cbn [text_truthy].
    2:{ split; [tauto|]. split; [discriminate|]. discriminate. }
    destruct (nonempty d) eqn:Hd.
    + split; [split; discriminate|]. split.
      * intros d' [= <-]. split; [now apply slice_to_nonempty|].
        apply Nat.leb_le, code_units_slice_to.
      * intros d' [= <-] _ Hshort%Nat.leb_le. unfold slice10.
        now rewrite slice_to_all.
    + split; [tauto|]. split; [discriminate|].
      intros d' [= <-] Hne. congruence.
Qed.

(** X25.  The confidence of the payload.  With a confidence on the
    record it is that number, in both revisions.  Without one it is
    computed from the field scores: their mean in the later revision,
    their mean rounded to three decimals in [UploadPage.tsx]; and where
    the record has no field score it is 0 in the later revision and
    undefined in [UploadPage.tsx].  So the later revision always sends a
    number, and [UploadPage.tsx] sends none exactly for a record that has
    neither a confidence nor a field score. *)
Theorem payload_confidence (r : InvoiceData) :
  let gated := SaveInvoicePayload.ocr_confidence (toPayload Gated.averageConfidence r) in
  let paged := SaveInvoicePayload.ocr_confidence (toPayload Paged.averageConfidence r) in
  match confidence r, field_confidence r with
  | Some c, _ => gated = Some c /\ paged = Some c
  | None, Some (entry :: entries) =>
      let mean :=
        (sum_numbers (entry.2 :: entries.*2)
         / of_integer (Z.of_nat (S (length entries))))%float in
      gated = Some mean /\ paged = Some (Math_round (mean * 1000) / 1000)%float
  | None, _ => gated = Some 0%float /\ paged = None
  end /\
  is_Some gated /\
  (paged = None <->
   confidence r = None /\
   (field_confidence r = None \/ field_confidence r = Some [])).
Proof.
  unfold toPayload. cbn [SaveInvoicePayload.ocr_confidence].
  destruct (confidence r) as [c|].
  { split; [split; reflexivity|]. split; [eauto|].
    split; [discriminate | intros [[=] _]]. }
  unfold Gated.averageConfidence, Paged.averageConfidence.
  destruct (field_confidence r) as [[|entry entries]|]; cbn.
  - split; [split; reflexivity|]. split; [eauto|]. split; auto.
  - rewrite length_fmap.
    split; [split; reflexivity|]. split; [eauto|].
    split; [discriminate | intros [_ [[=] | [=]]]].
  - split; [split; reflexivity|]. split; [eauto|]. split; auto.
Qed.

End PagedCommit.

(* ===================================================================== *)
(** * The file handlers *)
(* ===================================================================== *)

Section FileHandlers.

Import Intake.

(** The filter of [handleRemoveFile], from the index [from] on. *)
Lemma filter_out_index {A} (index : nat) (items : list A) : forall from : nat,
  filter_index (fun i => negb (i =? index)%nat) from items =
  if (from <=? index)%nat then delete (index - from)%nat items else items.
Proof.
  induction items as [|x items IH]; intros from.
  - cbn. now destruct (from <=? index)%nat.
  - cbn [filter_index]. rewrite IH.
    destruct (Nat.eqb_spec from index) as [->|Hne]; cbn [negb].
    + rewrite Nat.leb_refl, Nat.sub_diag.
      replace (S index <=? index)%nat with false by (symmetry; apply Nat.leb_gt; lia).
      reflexivity.
    + destruct (Nat.leb_spec from index).
      * replace (S from <=? index)%nat with true by (symmetry; apply Nat.leb_le; lia).
        replace (index - from)%nat with (S (index - S from)) by lia. reflexivity.
      * replace (S from <=? index)%nat with false by (symmetry; apply Nat.leb_gt; lia).
        reflexivity.
Qed.

(** X21.  [handleRemoveFile] removes the file at [index] from the
    selection and no other: the files before it stay, the files after it
    move up by one, and an index past the end removes nothing.  Nothing
    else of the state changes. *)
Theorem handleRemoveFile_removes_one (index : nat) (st : state) :
  selectedFiles (handleRemoveFile index st) =
    take index (selectedFiles st) ++ drop (S index) (selectedFiles st) /\
  length (selectedFiles (handleRemoveFile index st)) =
    (if (index <? length (selectedFiles st))%nat
     then length (selectedFiles st) - 1 else length (selectedFiles st))%nat /\
  newFiles (handleRemoveFile index st) = newFiles st /\
  results (handleRemoveFile index st) = results st /\
  error (handleRemoveFile index st) = error st.
Proof.
  unfold handleRemoveFile. cbn [selectedFiles newFiles results error].
  rewrite filter_out_index. cbn [Nat.leb]. rewrite Nat.sub_0_r.
  split; [apply delete_take_drop|]. split; [|repeat split].
  destruct (index <? length (selectedFiles st))%nat eqn:Hin.
  - apply Nat.ltb_lt in Hin. apply length_delete. now apply lookup_lt_is_Some.
  - apply Nat.ltb_ge in Hin.
    rewrite delete_take_drop, take_ge, drop_ge by lia. now rewrite app_nil_r.
Qed.

(** X22.  Adding files to a session never moves or drops a record:
    whatever [uploadAndProcess] answers or throws, after
    [handleProcessNewFiles] every record is at the index it had.  When the
    call throws, the files to add are kept for another try; when it
    answers, the new records come after the old ones. *)
Theorem handleProcessNewFiles_keeps_records (uploadAndProcess : processor)
    (st : state) (i : nat) (r : InvoiceData) :
  results st !! i = Some r ->
  results (handleProcessNewFiles uploadAndProcess st) !! i = Some r /\
  selectedFiles (handleProcessNewFiles uploadAndProcess st) = selectedFiles st /\
  match uploadAndProcess (newFiles st) with
  | inl _ =>
      newFiles (handleProcessNewFiles uploadAndProcess st) = newFiles st /\
      results (handleProcessNewFiles uploadAndProcess st) = results st
  | inr response =>
      newFiles (handleProcessNewFiles uploadAndProcess st) = [] /\
      results (handleProcessNewFiles uploadAndProcess st) =
        results st ++ (if bool_decide (newFiles st = []) then []
                       else ProcessResponse.results response)
  end.
Proof.
  intros Hr. unfold handleProcessNewFiles.
  destruct (newFiles st) as [|file files] eqn:Hnew.
  - split; [exact Hr|]. split; [reflexivity|].
    destruct (uploadAndProcess []); (split; [exact Hnew|]); [reflexivity|].
    cbn. now rewrite app_nil_r.
  - destruct (uploadAndProcess (file :: files)) as [message|response];
      cbn [results selectedFiles newFiles].
    + repeat split; auto.
    + repeat split; auto. now apply lookup_app_l_Some.
Qed.

Lemma handleProcessNewFiles_keeps_records_witness :
  let st := {| selectedFiles := []; newFiles := ["C.pdf"%string];
               results := [sample "A.pdf"; sample "B.pdf"];
               processing := false; error := None; vatRate := 0.18%float |} in
  let answer := fun _ : list string =>
    inr {| ProcessResponse.results := [sample "C.pdf"]; ProcessResponse.errors := [];
           ProcessResponse.total_files := 1; ProcessResponse.files_handled := 1;
           ProcessResponse.vat_rate := None |} in
  results (handleProcessNewFiles answer st) !! 1%nat = Some (sample "B.pdf").
Proof.
  intros st answer.
  exact (proj1 (handleProcessNewFiles_keeps_records answer st 1 (sample "B.pdf") eq_refl)).
Defined.

End FileHandlers.

(* ===================================================================== *)
(** * [round2] never gives NaN *)
(* ===================================================================== *)

Section NoNaN.

Local Open Scope float_scope.

(** The rounding of the IEEE specification, on a mantissa that is not
    negative, gives a zero, a finite number or an infinity. *)
Lemma shr_1_nonnegative mrs : (0 <= shr_m mrs)%Z -> (0 <= shr_m (shr_1 mrs))%Z.
Proof. destruct mrs as [[|[p|p|]|p] r s]; cbn; lia. Qed.

Lemma iter_shr_1_nonnegative p : forall mrs,
  (0 <= shr_m mrs)%Z -> (0 <= shr_m (SpecFloat.iter_pos shr_1 p mrs))%Z.
Proof.
  induction p as [p IH|p IH|]; intros mrs H; cbn.
  - apply IH, IH, shr_1_nonnegative, H.
  - apply IH, IH, H.
  - apply shr_1_nonnegative, H.
Qed.

Lemma shr_fexp_nonnegative m e l :
  (0 <= m)%Z -> (0 <= shr_m (fst (shr_fexp prec emax m e l)))%Z.
Proof.
  intros H. unfold shr_fexp, shr.
  assert (0 <= shr_m (shr_record_of_loc m l))%Z by (destruct l as [|[]]; exact H).
  destruct (_ - e)%Z; cbn [fst]; auto using iter_shr_1_nonnegative.
Qed.

Lemma round_nearest_even_nonnegative m l :
  (0 <= m)%Z -> (0 <= round_nearest_even m l)%Z.
Proof. intros H. destruct l as [|[]]; cbn; try destruct (Z.even m); lia. Qed.

Lemma binary_round_aux_not_nan s m e l :
  (0 <= m)%Z -> binary_round_aux prec emax s m e l <> S754_nan.
Proof.
  intros H. unfold binary_round_aux.
  pose proof (shr_fexp_nonnegative m e l H) as H1.
  destruct (shr_fexp prec emax m e l) as [mrs' e'] eqn:E1. cbn [fst] in H1.
  pose proof (shr_fexp_nonnegative
                (round_nearest_even (shr_m mrs') (loc_of_shr_record mrs')) e' loc_Exact
                (round_nearest_even_nonnegative _ _ H1)) as H2.
  destruct (shr_fexp prec emax _ e' loc_Exact) as [mrs'' e''] eqn:E2. cbn [fst] in H2.
  destruct (shr_m mrs'') as [|p|p]; [discriminate| |lia].
  destruct (e'' <=? _)%Z; discriminate.
Qed.

Lemma binary_normalize_not_nan m e s :
  binary_normalize prec emax m e s <> S754_nan.
Proof.
  destruct m as [|p|p]; cbn [binary_normalize]; [discriminate| |];
    unfold binary_round; destruct (shl_align _ _ _) as [mz ez];
    apply binary_round_aux_not_nan; lia.
Qed.

(** The product of a finite number and 100 is not NaN. *)
Lemma scaled_not_nan (x : number) :
  isFinite x = true -> Prim2SF (x * 100) <> S754_nan.
Proof.
  unfold isFinite. rewrite FloatAxioms.mul_spec.
  change (Prim2SF 100) with (S754_finite false 7036874417766400 (-46)).
  destruct (Prim2SF x) as [s|s| |s m e]; try discriminate; intros _.
  cbn. apply binary_round_aux_not_nan. lia.
Qed.

(** [Math.round] gives NaN at NaN only. *)
Lemma Math_round_not_nan (z : number) :
  Prim2SF z <> S754_nan -> Prim2SF (Math_round z) <> S754_nan.
Proof.
  intros Hz. unfold Math_round.
  destruct (Prim2SF z) as [s|s| |s m e] eqn:E; try (rewrite E; discriminate);
    [congruence|].
  destruct (0 <=? e)%Z; [rewrite E; discriminate|].
  destruct (_ =? 0)%Z.
  { destruct s; discriminate. }
  unfold of_integer. destruct (_ <? 0)%Z.
  - rewrite FloatAxioms.opp_spec, FloatAxioms.of_uint63_spec.
    set (k := Uint63Axioms.to_Z _).
    pose proof (binary_normalize_not_nan k 0 false).
    destruct (binary_normalize _ _ _ _ _); cbn; congruence.
  - rewrite FloatAxioms.of_uint63_spec. apply binary_normalize_not_nan.
Qed.

(** The quotient by 100 of a number that is not NaN is not NaN. *)
Lemma hundredth_not_nan (w : number) :
  Prim2SF w <> S754_nan -> Prim2SF (w / 100) <> S754_nan.
Proof.
  intros Hw. rewrite FloatAxioms.div_spec.
  change (Prim2SF 100) with (S754_finite false 7036874417766400 (-46)).
  destruct (Prim2SF w) as [s|s| |s m e]; try discriminate; [congruence|].
  unfold SF64div, SFdiv.
  destruct (SFdiv_core_binary _ _ _ _ _ _) as [[mz ez] lz] eqn:E.
  apply binary_round_aux_not_nan.
  unfold SFdiv_core_binary in E.
  destruct (Z.div_eucl _ _) as [q r] eqn:Ediv. injection E as <- _ _.
  match type of Ediv with
  | Z.div_eucl ?a ?b = _ =>
      assert (q = (a / b)%Z) as -> by (unfold Z.div; now rewrite Ediv);
      apply Z.div_pos; [|lia]
  end.
  destruct (_ - _ - _)%Z; try lia. apply Z.shiftl_nonneg. lia.
Qed.

Lemma round2_not_NaN (n : option number) : not_NaN (round2 n) = true.
Proof.
  destruct n as [x|]; [|reflexivity]. unfold round2.
  destruct (isFinite x) eqn:Hx; [|reflexivity].
  cbn [not_NaN]. unfold isNaN.
  pose proof (hundredth_not_nan _ (Math_round_not_nan _ (scaled_not_nan x Hx))) as H.
  destruct (Prim2SF (Math_round (x * 100) / 100)); try reflexivity. congruence.
Qed.

(** X23.  [round2] never returns NaN, whatever it is given: undefined,
    NaN, an infinity or a finite number.  Its result is undefined or a
    number other than NaN (it can be an infinity, when the scaling by 100
    overflows). *)
Theorem round2_never_NaN (n : option number) : not_NaN (round2 n) = true.
Proof. apply round2_not_NaN. Qed.

#[local] Arguments round2 : simpl never.
#[local] Arguments truthy : simpl never.

(** X24.  No amount that the reconciler derives is NaN, in either
    revision and at every rate (NaN and 0 included): after an edit, each
    of subtotal, tax and total is what the assignment of the typed value
    left there, or is undefined, or is a number other than NaN. *)
Theorem derived_amounts_never_NaN (vatRate : number) (e : edit) (item : InvoiceData) :
  kept_or_not_NaN (assign e item) (Paged.reconcile vatRate e item) /\
  kept_or_not_NaN (assign e item) (Gated.reconcile vatRate e item).
Proof.
  unfold kept_or_not_NaN. split.
  - destruct e as [[] [x|] | [] w], item; cbn;
      repeat split; first [left; reflexivity | right; apply round2_not_NaN].
  - unfold Gated.reconcile.
    destruct e as [[] x | [] w], item; cbn;
      try destruct (falsy _); cbn;
      repeat split; first [left; reflexivity | right; apply round2_not_NaN].
Qed.

End NoNaN.
